(** * MLXCode: the retrieval pipeline of [Python/rag_system.py]

    A shallow embedding of [RAGSystem]: the chunker [_split_into_chunks],
    the chunk identity built in [index_file], the indexer ([index_file],
    [index_directory]), the retriever [search] and the context assembler
    [get_context_for_query].

    Conventions.
    - A Python [str] is a [list ascii]: the characters are the code points
      below 256, [len] is [length].  Python integers are [Z].
    - The embedding model, the ChromaDB collection, [pathlib] and the file
      system are collaborators outside the repository: they are Section
      variables or type-class methods, and a call that may raise returns a
      [result].  [Path.rglob] is a generator: it is the list of the paths it
      yields, with the exception that ends it, if any.
    - [Path.expanduser] and [Path.exists] are taken not to raise; the
      methods call them inside their [try], so an exception there would end
      as the error result of the method.
    - The metadata of a row that the store returns is a dictionary with the
      keys that [index_file] writes; a row without metadata, on which
      [get_context_for_query] would raise, is outside the model. *)

From Stdlib Require Import ZArith Ascii String List Lia Bool DecimalString DecimalNat.
From stdpp Require Import base option list gmap strings.
Import ListNotations.

#[local] Open Scope Z_scope.

(** ** Python strings *)

Abbreviation str := (list ascii).

(** A string literal of the source. *)
Definition lit (s : string) : str := list_ascii_of_string s.

(** [len(s)] as a Python integer. *)
Definition len {A} (l : list A) : Z := Z.of_nat (length l).

Definition newline : ascii := ascii_of_nat 10.
Definition space : ascii := ascii_of_nat 32.

(** [str.isspace] on one character, for the code points below 256:
    TAB, LF, VT, FF, CR, FS, GS, RS, US, SPACE, NEL and NBSP. *)
Definition isspace (c : ascii) : bool :=
  let n := nat_of_ascii c in
  ((9 <=? n) && (n <=? 13) || (28 <=? n) && (n <=? 32)
   || (n =? 133) || (n =? 160))%nat.

(** [s.split(sep)] for a separator of one character: the pieces between the
    occurrences of [sep]; never the empty list. *)
Fixpoint split_on (sep : ascii) (s : str) : list str :=
  match s with
  | [] => [[]]
  | c :: s' =>
      if Ascii.eqb c sep then [] :: split_on sep s'
      else match split_on sep s' with
           | [] => [[c]]
           | piece :: pieces => (c :: piece) :: pieces
           end
  end.

(** [s.split()]: the maximal runs of characters that are not whitespace.
    [word] is the run being scanned. *)
Fixpoint split_from (word : str) (s : str) : list str :=
  match s with
  | [] => match word with [] => [] | _ => [word] end
  | c :: s' =>
      if isspace c
      then match word with
           | [] => split_from [] s'
           | _ => word :: split_from [] s'
           end
      else split_from (word ++ [c]) s'
  end.

Definition split_whitespace (s : str) : list str := split_from [] s.

(** [sep.join(parts)]. *)
Fixpoint join (sep : str) (parts : list str) : str :=
  match parts with
  | [] => []
  | [p] => p
  | p :: rest => p ++ sep ++ join sep rest
  end.

(** Truth value of a Python list: [if xs:]. *)
Definition truthy {A} (xs : list A) : bool :=
  match xs with [] => false | _ => true end.

(** ** Chunker: [RAGSystem._split_into_chunks] *)

(** The three locals of the outer loop. *)
Record chunker := Chunker {
  chunks : list str;
  current_chunk : list str;
  current_size : Z
}.

(** The three locals of the inner loop over the words of a long line
    (the chunk list is shared with the outer loop). *)
Record wrapper := Wrapper {
  w_chunks : list str;
  word_chunk : list str;
  word_size : Z
}.

(** Body of [for word in words]. *)
Definition wrap_word (max_chunk_size : Z) (w : wrapper) (word : str) : wrapper :=
  if word_size w + len word + 1 >? max_chunk_size
  then Wrapper (w_chunks w ++ [join [space] (word_chunk w)]) [word] (len word)
  else Wrapper (w_chunks w) (word_chunk w ++ [word]) (word_size w + len word + 1).

(** The branch [if line_size > max_chunk_size] of the outer loop: save the
    current chunk if any, split the long line by words, save the last word
    chunk if any. *)
Definition split_long_line (max_chunk_size : Z) (st : chunker) (line : str) : chunker :=
  let st :=
    if truthy (current_chunk st)
    then Chunker (chunks st ++ [join [newline] (current_chunk st)]) [] 0
    else st in
  let words := split_whitespace line in
  let w := fold_left (wrap_word max_chunk_size) words (Wrapper (chunks st) [] 0) in
  let chunks' :=
    if truthy (word_chunk w)
    then w_chunks w ++ [join [space] (word_chunk w)]
    else w_chunks w in
  Chunker chunks' (current_chunk st) (current_size st).

(** Body of [for line in lines]. *)
Definition chunk_line (max_chunk_size : Z) (st : chunker) (line : str) : chunker :=
  let line_size := len line in
  if line_size >? max_chunk_size then split_long_line max_chunk_size st line
  else if current_size st + line_size + 1 >? max_chunk_size
  then Chunker (chunks st ++ [join [newline] (current_chunk st)]) [line] line_size
  else Chunker (chunks st) (current_chunk st ++ [line]) (current_size st + line_size + 1).

Definition _split_into_chunks (text : str) (max_chunk_size : Z) : list str :=
  let lines := split_on newline text in
  let st := fold_left (chunk_line max_chunk_size) lines (Chunker [] [] 0) in
  if truthy (current_chunk st)
  then chunks st ++ [join [newline] (current_chunk st)]
  else chunks st.

(** ** Exceptions and results

    A call that may raise returns a [result].  The source tells
    [UnicodeDecodeError] from every other [Exception]; [str(e)] is the
    message. *)

Inductive exn :=
  | UnicodeDecodeError (message : str)
  | Exception (message : str).

Definition exn_str (e : exn) : str :=
  match e with UnicodeDecodeError m => m | Exception m => m end.

Inductive result (A : Type) :=
  | Ok (a : A)
  | Raise (e : exn).
Arguments Ok {A} a.
Arguments Raise {A} e.

(** The dictionaries returned by the public methods: either
    [{"success": True, ...}] or [{"success": False, "error": ..., "type": ...}]. *)
Inductive outcome (A : Type) :=
  | Success (report : A)
  | Failure (error : str) (type : str).
Arguments Success {A} report.
Arguments Failure {A} error type.

(** ** pathlib and the file system *)

(** A [Path] as the source uses it: [str(p)], [p.name], [p.suffix]. *)
Record path := Path {
  path_str : str;
  name : str;
  suffix : str
}.

(** What the source asks of the operating system. *)
Record file_system := FileSystem {
  expanduser : str -> path;          (* Path(s).expanduser() *)
  path_exists : path -> bool;        (* p.exists() *)
  is_file : path -> result bool;     (* p.is_file(); it raises the OSErrors
                                        that do not mean "no such file" *)
  read_text : path -> result str;    (* open(p, 'r', encoding='utf-8').read() *)
  rglob : path -> list path * option exn
                                     (* p.rglob("*"), a generator: the paths
                                        that it yields and, when it ends by
                                        raising, the exception *)
}.

(** [s.strip()]: whitespace removed at both ends. *)
Fixpoint lstrip (s : str) : str :=
  match s with
  | c :: s' => if isspace c then lstrip s' else s
  | [] => []
  end.

Definition strip (s : str) : str := rev (lstrip (rev (lstrip s))).

(** [pattern in s] on strings. *)
Fixpoint startswith (pattern s : str) : bool :=
  match pattern, s with
  | [], _ => true
  | p :: pattern', c :: s' => Ascii.eqb p c && startswith pattern' s'
  | _ :: _, [] => false
  end.

Fixpoint contains (pattern s : str) : bool :=
  startswith pattern s ||
  match s with
  | [] => false
  | _ :: s' => contains pattern s'
  end.

(** [f"{i}"] for a natural number. *)
Definition decimal (i : nat) : str :=
  list_ascii_of_string (NilEmpty.string_of_uint (Nat.to_uint i)).

(** [s.encode()]: UTF-8, for the code points below 256. *)
Definition str_encode (s : str) : list Z :=
  flat_map (fun c =>
    let n := Z.of_nat (nat_of_ascii c) in
    if n <? 128 then [n]
    else [Z.lor 0xC0 (Z.shiftr n 6); Z.lor 0x80 (Z.land n 0x3F)]) s.

(** ** hashlib.md5

    The digest of RFC 1321 on a list of bytes; 32-bit words are [Z] reduced
    modulo [2^32] after every addition and rotation. *)
Module MD5.

Definition mask32 (x : Z) : Z := x mod 2 ^ 32.

Definition not32 (x : Z) : Z := Z.lxor x 0xffffffff.

Definition rotl (x c : Z) : Z :=
  mask32 (Z.lor (Z.shiftl x c) (Z.shiftr x (32 - c))).

Definition K : list Z := [
  0xd76aa478; 0xe8c7b756; 0x242070db; 0xc1bdceee;
  0xf57c0faf; 0x4787c62a; 0xa8304613; 0xfd469501;
  0x698098d8; 0x8b44f7af; 0xffff5bb1; 0x895cd7be;
  0x6b901122; 0xfd987193; 0xa679438e; 0x49b40821;
  0xf61e2562; 0xc040b340; 0x265e5a51; 0xe9b6c7aa;
  0xd62f105d; 0x02441453; 0xd8a1e681; 0xe7d3fbc8;
  0x21e1cde6; 0xc33707d6; 0xf4d50d87; 0x455a14ed;
  0xa9e3e905; 0xfcefa3f8; 0x676f02d9; 0x8d2a4c8a;
  0xfffa3942; 0x8771f681; 0x6d9d6122; 0xfde5380c;
  0xa4beea44; 0x4bdecfa9; 0xf6bb4b60; 0xbebfbc70;
  0x289b7ec6; 0xeaa127fa; 0xd4ef3085; 0x04881d05;
  0xd9d4d039; 0xe6db99e5; 0x1fa27cf8; 0xc4ac5665;
  0xf4292244; 0x432aff97; 0xab9423a7; 0xfc93a039;
  0x655b59c3; 0x8f0ccc92; 0xffeff47d; 0x85845dd1;
  0x6fa87e4f; 0xfe2ce6e0; 0xa3014314; 0x4e0811a1;
  0xf7537e82; 0xbd3af235; 0x2ad7d2bb; 0xeb86d391 ].

Definition shifts : list Z := [
  7; 12; 17; 22; 7; 12; 17; 22; 7; 12; 17; 22; 7; 12; 17; 22;
  5; 9; 14; 20; 5; 9; 14; 20; 5; 9; 14; 20; 5; 9; 14; 20;
  4; 11; 16; 23; 4; 11; 16; 23; 4; 11; 16; 23; 4; 11; 16; 23;
  6; 10; 15; 21; 6; 10; 15; 21; 6; 10; 15; 21; 6; 10; 15; 21 ].

(** Little-endian value of a list of bytes. *)
Fixpoint le_value (bytes : list Z) : Z :=
  match bytes with
  | [] => 0
  | b :: rest => b + 256 * le_value rest
  end.

(** The [n] little-endian bytes of [x]. *)
Fixpoint le_bytes (n : nat) (x : Z) : list Z :=
  match n with
  | O => []
  | S n' => x mod 256 :: le_bytes n' (x / 256)
  end.

(** Consecutive groups of [size] elements. *)
Fixpoint groups {A} (fuel size : nat) (l : list A) : list (list A) :=
  match fuel, l with
  | S fuel', _ :: _ => firstn size l :: groups fuel' size (skipn size l)
  | _, _ => []
  end.

Definition pad (message : list Z) : list Z :=
  let n := len message in
  message ++ [0x80] ++ repeat 0 (Z.to_nat ((55 - n) mod 64))
          ++ le_bytes 8 ((8 * n) mod 2 ^ 64).

Record state := State { sa : Z; sb : Z; sc : Z; sd : Z }.

Definition init : state :=
  State 0x67452301 0xefcdab89 0x98badcfe 0x10325476.

Definition step (M : list Z) (st : state) (i : nat) : state :=
  let '(State a b c d) := st in
  let i' := Z.of_nat i in
  let '(f, g) :=
    if i' <? 16 then (Z.lor (Z.land b c) (Z.land (not32 b) d), i')
    else if i' <? 32 then (Z.lor (Z.land d b) (Z.land (not32 d) c), (5 * i' + 1) mod 16)
    else if i' <? 48 then (Z.lxor (Z.lxor b c) d, (3 * i' + 5) mod 16)
    else (Z.lxor c (Z.lor b (not32 d)), (7 * i') mod 16) in
  let f' := mask32 (f + a + nth i K 0 + nth (Z.to_nat g) M 0) in
  State d (mask32 (b + rotl f' (nth i shifts 0))) b c.

Definition compress (st : state) (block : list Z) : state :=
  let M := map le_value (groups 16 4 block) in
  let '(State a b c d) := fold_left (step M) (seq 0 64) st in
  State (mask32 (sa st + a)) (mask32 (sb st + b))
        (mask32 (sc st + c)) (mask32 (sd st + d)).

Definition digest (message : list Z) : list Z :=
  let padded := pad message in
  let '(State a b c d) :=
    fold_left compress (groups (length padded) 64 padded) init in
  le_bytes 4 a ++ le_bytes 4 b ++ le_bytes 4 c ++ le_bytes 4 d.

Definition hex_digit (n : Z) : ascii :=
  nth (Z.to_nat n) (list_ascii_of_string "0123456789abcdef") "0"%char.

Definition hexdigest (message : list Z) : str :=
  flat_map (fun b => [hex_digit (b / 16); hex_digit (b mod 16)]) (digest message).

End MD5.

(** ** Chunk identity: [file_id] and [chunk_id] of [index_file] *)

(** [hashlib.md5(str(file_path).encode()).hexdigest()] *)
Definition file_id (file_path : str) : str :=
  MD5.hexdigest (str_encode file_path).

(** [f"{file_id}_{i}"] *)
Definition chunk_id (file_path : str) (i : nat) : str :=
  file_id file_path ++ lit "_" ++ decimal i.

(** ** The vector store *)

Record metadata := Metadata {
  file_path : str;
  file_name : str;
  file_extension : str;
  chunk_index : Z;
  total_chunks : Z
}.

(** The keyword arguments of one [collection.add(...)] call. *)
Record add_request (E : Type) := AddRequest {
  ids : list str;
  embeddings : list E;
  documents : list str;
  metadatas : list metadata
}.
Arguments AddRequest {E} ids embeddings documents metadatas.
Arguments ids {E} a.
Arguments embeddings {E} a.
Arguments documents {E} a.
Arguments metadatas {E} a.

(** [{"file_extension": {"$in": file_extensions}}] *)
Inductive where_filter :=
  | FileExtensionIn (file_extensions : list str).

(** The dictionary returned by [collection.query]: the inner lists
    [results['ids'][0]], [results['documents'][0]], [results['metadatas'][0]]
    and, when the key is present, [results['distances'][0]]. *)
Record query_result (D : Type) := QueryResult {
  result_ids : list str;
  result_documents : list str;
  result_metadatas : list metadata;
  result_distances : option (list D)
}.
Arguments QueryResult {D} result_ids result_documents result_metadatas result_distances.
Arguments result_ids {D} q.
Arguments result_documents {D} q.
Arguments result_metadatas {D} q.
Arguments result_distances {D} q.

(** The writing side of the ChromaDB collection, over embeddings [E].  The
    source writes with [add] only; [upsert] is the insert-or-replace call of
    the same interface.  A call that raises leaves the collection as it
    was. *)
Class Collection (C E : Type) := {
  collection_add : C -> add_request E -> result C;
  collection_upsert : C -> add_request E -> result C
}.

(** One formatted result of [search]. *)
Record hit (D : Type) := Hit {
  hit_id : str;
  document : str;
  hit_metadata : metadata;
  distance : option D
}.
Arguments Hit {D} hit_id document hit_metadata distance.
Arguments hit_id {D} h.
Arguments document {D} h.
Arguments hit_metadata {D} h.
Arguments distance {D} h.

(** ** Reports of the public methods *)

Record file_report := FileReport {
  report_file_path : str;
  report_chunks : Z
}.

Record directory_report := DirectoryReport {
  indexed : Z;
  skipped : Z;
  errors : Z;
  directory : str
}.

Record search_report (D : Type) := SearchReport {
  query : str;
  results : list (hit D);
  count : Z
}.
Arguments SearchReport {D} query results count.
Arguments query {D} s.
Arguments results {D} s.
Arguments count {D} s.

(** The JSON lines printed by [index_directory]. *)
Inductive event :=
  | Progress (indexed : Z) (current_file : str)
  | Warning (message : str).

(** ** State and exceptions

    The process state is the collection and the lines printed so far.  A
    computation returns the new state together with a value or a raised
    exception: effects made before a [raise] stay. *)

Record world (C : Type) := World {
  collection : C;
  stdout : list event
}.
Arguments World {C} collection stdout.
Arguments collection {C} w.
Arguments stdout {C} w.

Definition M (C A : Type) : Type := world C -> world C * result A.

Definition ret {C A} (a : A) : M C A := fun w => (w, Ok a).

Definition raise {C A} (e : exn) : M C A := fun w => (w, Raise e).

Definition bind {C A B} (m : M C A) (k : A -> M C B) : M C B :=
  fun w =>
    match m w with
    | (w', Ok a) => k a w'
    | (w', Raise e) => (w', Raise e)
    end.

(** [try: m except Exception as e: handler e] *)
Definition try_except {C A} (m : M C A) (handler : exn -> M C A) : M C A :=
  fun w =>
    match m w with
    | (w', Ok a) => (w', Ok a)
    | (w', Raise e) => handler e w'
    end.

(** A call of a collaborator that does not touch the state. *)
Definition lift {C A} (r : result A) : M C A := fun w => (w, r).

Definition print {C} (e : event) : M C unit :=
  fun w => (World (collection w) (stdout w ++ [e]), Ok tt).

Notation "x <-- m ;; k" := (bind m (fun x => k))
  (at level 90, m at level 80, right associativity).
Notation "m ;;; k" := (bind m (fun _ => k))
  (at level 90, right associativity).

(** ** Context assembly: the loop of [get_context_for_query] *)

(** The f-string of one entry. *)
Definition format_entry {D} (result : hit D) : str :=
  let metadata := hit_metadata result in
  [newline] ++ lit "# From " ++ file_name metadata ++ lit " ("
    ++ file_extension metadata ++ lit ")" ++ [newline]
    ++ lit "```" ++ [newline] ++ document result ++ [newline]
    ++ lit "```" ++ [newline].

(** [for result in search_result["results"]], with its [break]: the final
    value of [context_parts]. *)
Fixpoint collect_context_parts {D} (results : list (hit D))
    (context_parts : list str) (current_length max_context_length : Z) : list str :=
  match results with
  | [] => context_parts
  | result :: rest =>
      let entry := format_entry result in
      if current_length + len entry >? max_context_length then context_parts
      else collect_context_parts rest (context_parts ++ [entry])
             (current_length + len entry) max_context_length
  end.

(** Lines 312-329: the string returned once the search has succeeded. *)
Definition assemble_context {D} (results : list (hit D)) (max_context_length : Z) : str :=
  join [newline] (collect_context_parts results [] 0 max_context_length).

(** ** Indexer and retriever *)

(** [for x in xs: body], in the monad. *)
Fixpoint for_each {C A} (xs : list A) (body : A -> M C unit) : M C unit :=
  match xs with
  | [] => ret tt
  | x :: rest => body x ;;; for_each rest body
  end.

(** [enumerate(xs)], counting from [i]. *)
Fixpoint enumerate_from {A} (i : nat) (xs : list A) : list (nat * A) :=
  match xs with
  | [] => []
  | x :: rest => (i, x) :: enumerate_from (S i) rest
  end.

Definition enumerate {A} (xs : list A) : list (nat * A) := enumerate_from 0 xs.

(** The counters of [index_directory]. *)
Record counters := Counters {
  indexed_count : Z;
  skipped_count : Z;
  error_count : Z
}.

Definition default_extensions : list str :=
  map lit [".swift"; ".m"; ".h"; ".py"; ".js"; ".ts"; ".json"; ".md"]%string.

Definition default_exclude_patterns : list str :=
  map lit ["build"; "Build"; "DerivedData"; ".build"; "node_modules"; ".git";
           "__pycache__"; "test"; "Test"; "tests"; "Tests"]%string.

(** The metadata dictionary built in the loop of [index_file] for chunk [i]. *)
Definition chunk_metadata (file_path : path) (total : Z) (i : nat) : metadata :=
  Metadata (path_str file_path) (name file_path) (suffix file_path)
           (Z.of_nat i) total.

(** The request built in the loop of [index_file] for chunk [i]. *)
Definition chunk_request {E} (file_path : path) (total : Z)
    (i : nat) (chunk : str) (embedding : E) : add_request E :=
  AddRequest
    [chunk_id (path_str file_path) i]
    [embedding]
    [chunk]
    [chunk_metadata file_path total i].

Section RAGSystem.

Context {C E D : Type} `{!Collection C E}.

(** The operating system. *)
Variable fs : file_system.

(** [self.embedding_model.encode(texts, show_progress_bar=False)] *)
Variable embedding_model_encode : list str -> result (list E).

(** [self.collection.query(query_embeddings=..., n_results=..., where=...)] *)
Variable collection_query :
  C -> list E -> Z -> option where_filter -> result (query_result D).

(** [self.collection.add(...)] *)
Definition add (request : add_request E) : M C unit :=
  fun w =>
    match collection_add (collection w) request with
    | Ok c => (World c (stdout w), Ok tt)
    | Raise e => (w, Raise e)
    end.

Definition index_file (file_path : str) : M C (outcome file_report) :=
  try_except
    (let file_path := expanduser fs file_path in
     if negb (path_exists fs file_path)
     then ret (Failure (lit "File does not exist: " ++ path_str file_path)
                       (lit "path_error"))
     else
       match read_text fs file_path with
       | Raise (UnicodeDecodeError _) =>
           ret (Failure (lit "Binary file, skipped") (lit "encoding_error"))
       | Raise e => raise e
       | Ok content =>
           if negb (truthy (strip content))
           then ret (Failure (lit "Empty file, skipped") (lit "empty_file"))
           else
             let chunks := _split_into_chunks content 1000 in
             embeddings <-- lift (embedding_model_encode chunks) ;;
             for_each (enumerate (combine chunks embeddings))
               (fun '(i, (chunk, embedding)) =>
                  add (chunk_request file_path (len chunks) i chunk embedding)) ;;;
             ret (Success (FileReport (path_str file_path) (len chunks)))
       end)
    (fun e => ret (Failure (exn_str e) (lit "indexing_error"))).

(** Body of [for file_path in directory.rglob("*")]. *)
Definition index_entry (extensions exclude_patterns : list str)
    (cnt : counters) (file_path : path) : M C counters :=
  regular <-- lift (is_file fs file_path) ;;
  if negb regular then ret cnt
  else if negb (bool_decide (suffix file_path ∈ extensions))
  then ret (Counters (indexed_count cnt) (skipped_count cnt + 1) (error_count cnt))
  else if existsb (fun pattern => contains pattern (path_str file_path)) exclude_patterns
  then ret (Counters (indexed_count cnt) (skipped_count cnt + 1) (error_count cnt))
  else
    try_except
      (index_file (path_str file_path) ;;;
       let indexed_count' := indexed_count cnt + 1 in
       (if indexed_count' mod 10 =? 0
        then print (Progress indexed_count' (name file_path))
        else ret tt) ;;;
       ret (Counters indexed_count' (skipped_count cnt) (error_count cnt)))
      (fun e =>
         print (Warning (lit "Failed to index " ++ path_str file_path
                           ++ lit ": " ++ exn_str e)) ;;;
         ret (Counters (indexed_count cnt) (skipped_count cnt) (error_count cnt + 1))).

Fixpoint index_entries (extensions exclude_patterns : list str)
    (cnt : counters) (files : list path) : M C counters :=
  match files with
  | [] => ret cnt
  | file_path :: rest =>
      cnt' <-- index_entry extensions exclude_patterns cnt file_path ;;
      index_entries extensions exclude_patterns cnt' rest
  end.

(** The loop runs over the paths that [rglob] yields; when the generator
    ends by raising, the exception leaves the loop after them. *)
Definition index_directory (directory_path : str)
    (extensions exclude_patterns : option (list str)) : M C (outcome directory_report) :=
  try_except
    (let directory := expanduser fs directory_path in
     if negb (path_exists fs directory)
     then ret (Failure (lit "Directory does not exist: " ++ path_str directory)
                       (lit "path_error"))
     else
       let extensions := default default_extensions extensions in
       let exclude_patterns := default default_exclude_patterns exclude_patterns in
       let '(files, failure) := rglob fs directory in
       cnt <-- index_entries extensions exclude_patterns (Counters 0 0 0) files ;;
       match failure with
       | Some e => raise e
       | None =>
           ret (Success (DirectoryReport (indexed_count cnt) (skipped_count cnt)
                                         (error_count cnt) (path_str directory)))
       end)
    (fun e => ret (Failure (exn_str e) (lit "indexing_error"))).

(** [xs[i]], raising [IndexError] out of range. *)
Definition index {A} (xs : list A) (i : nat) : result A :=
  match xs !! i with
  | Some x => Ok x
  | None => Raise (Exception (lit "list index out of range"))
  end.

(** One dictionary of [formatted_results]. *)
Definition format_result (r : query_result D) (i : nat) : result (hit D) :=
  match index (result_ids r) i, index (result_documents r) i,
        index (result_metadatas r) i with
  | Ok id, Ok doc, Ok meta =>
      match result_distances r with
      | None => Ok (Hit id doc meta None)
      | Some distances =>
          match index distances i with
          | Ok d => Ok (Hit id doc meta (Some d))
          | Raise e => Raise e
          end
      end
  | Raise e, _, _ | _, Raise e, _ | _, _, Raise e => Raise e
  end.

Fixpoint format_results (r : query_result D) (indices : list nat) : result (list (hit D)) :=
  match indices with
  | [] => Ok []
  | i :: rest =>
      match format_result r i with
      | Raise e => Raise e
      | Ok h =>
          match format_results r rest with
          | Raise e => Raise e
          | Ok hs => Ok (h :: hs)
          end
      end
  end.

Definition search (query : str) (n_results : Z) (file_extensions : option (list str))
    : M C (outcome (search_report D)) :=
  try_except
    (vectors <-- lift (embedding_model_encode [query]) ;;
     query_embedding <-- lift (index vectors 0%nat) ;;
     let where_filter :=
       match file_extensions with
       | Some ((_ :: _) as exts) => Some (FileExtensionIn exts)
       | _ => None
       end in
     results <-- (fun w => (w, collection_query (collection w) [query_embedding]
                                                 n_results where_filter)) ;;
     formatted_results <--
       lift (format_results results (seq 0 (length (result_ids results)))) ;;
     ret (Success (SearchReport query formatted_results (len formatted_results))))
    (fun e => ret (Failure (exn_str e) (lit "search_error"))).

Definition get_context_for_query (query : str) (n_results max_context_length : Z)
    : M C str :=
  search_result <-- search query n_results None ;;
  match search_result with
  | Failure _ _ => ret []
  | Success report => ret (assemble_context (results report) max_context_length)
  end.

End RAGSystem.

(** ** Statistics: [RAGSystem.get_stats] *)

Record stats_report := StatsReport {
  stats_total_chunks : Z;
  stats_unique_files : Z;
  stats_db_path : str
}.

Section Statistics.

Context {C : Type}.

(** [str(self.db_path)] *)
Variable db_path : str.

(** [self.collection.count()] *)
Variable collection_count : C -> result Z.

(** [self.collection.get()['metadatas']]: a list, or [None]. *)
Variable collection_get : C -> result (option (list metadata)).

Definition get_stats : M C (outcome stats_report) :=
  try_except
    (count <-- (fun w => (w, collection_count (collection w))) ;;
     all_metadata <-- (fun w => (w, collection_get (collection w))) ;;
     let unique_files : gset str :=
       match all_metadata with
       | Some ((_ :: _) as metadatas) => list_to_set (map file_path metadatas)
       | _ => ∅
       end in
     ret (Success (StatsReport count (Z.of_nat (size unique_files)) db_path)))
    (fun e => ret (Failure (exn_str e) (lit "stats_error"))).

End Statistics.

(** ** The inference engine: [MLXInferenceEngine] of [mlx_inference.py]

    The state of the engine is its three attributes.  [mlx_lm.load],
    [mlx_lm.generate] and the garbage collector are collaborators: a loader
    that returns a model and a tokenizer or raises, a generator that raises
    when it is called or returns a response, and [gc.collect()].  A response
    is iterated once: the strings it yields, then the exception that ends
    the iteration, if any.  Sampling parameters are of an abstract type of
    floats. *)

Record engine (Mdl Tok : Type) := Engine {
  model : option Mdl;
  tokenizer : option Tok;
  model_path : option path
}.
Arguments Engine {Mdl Tok} model tokenizer model_path.
Arguments model {Mdl Tok} e.
Arguments tokenizer {Mdl Tok} e.
Arguments model_path {Mdl Tok} e.

(** [MLXInferenceEngine()]; the [config] dictionary that [__init__] also
    creates is never read. *)
Definition __init__ {Mdl Tok : Type} : engine Mdl Tok := Engine None None None.

(** The success dictionary of [load_model]. *)
Record load_report := LoadReport {
  loaded_path : str;
  loaded_name : str;
  loaded_type : str;
  cached : bool;
  load_message : str
}.

(** The dictionaries yielded by [generate]. *)
Inductive generation_event :=
  | TokenEvent (token : str)
  | CompleteEvent (text : str)
  | DoneEvent
  | ErrorEvent (error : str) (type : str).

Section InferenceEngine.

Context {Mdl Tok F : Type}.

(** [Path(s).expanduser()] and [p.exists()]. *)
Variable fs : file_system.

(** [mlx_lm.load(str(model_path))] *)
Variable mlx_load : str -> result (Mdl * Tok).

(** [mlx_lm.generate(model, tokenizer, prompt=..., max_tokens=...,
    verbose=False)] *)
Variable mlx_generate : Mdl -> Tok -> str -> Z -> result (list str * option exn).

(** [gc.collect()] *)
Variable gc_collect : result unit.

Definition load_model (self : engine Mdl Tok) (model_path' : str)
    : engine Mdl Tok * outcome load_report :=
  let model_path' := expanduser fs model_path' in
  if negb (path_exists fs model_path')
  then (self, Failure (lit "Model path does not exist: " ++ path_str model_path')
                      (lit "path_error"))
  else if match model self, model_path self with
          | Some _, Some loaded =>
              bool_decide (path_str loaded = path_str model_path')
          | _, _ => false
          end
  then (self, Success (LoadReport (path_str model_path') (name model_path')
                         (lit "mlx") true (lit "Model already loaded (cached)")))
  else
    match mlx_load (path_str model_path') with
    | Raise e => (self, Failure (exn_str e) (lit "load_error"))
    | Ok (m, t) =>
        (Engine (Some m) (Some t) (Some model_path'),
         Success (LoadReport (path_str model_path') (name model_path')
                    (lit "mlx") false (lit "Model loaded from disk")))
    end.

Definition generate (self : engine Mdl Tok) (prompt : str) (max_tokens : Z)
    (temperature top_p repetition_penalty : F) (stream : bool)
    : list generation_event :=
  match model self, tokenizer self with
  | Some m, Some t =>
      match mlx_generate m t prompt max_tokens with
      | Raise e => [ErrorEvent (exn_str e) (lit "generation_error")]
      | Ok (tokens, failure) =>
          if stream
          then map TokenEvent tokens ++
               match failure with
               | None => [DoneEvent]
               | Some e => [ErrorEvent (exn_str e) (lit "generation_error")]
               end
          else
            match failure with
            | None => [CompleteEvent (concat tokens); DoneEvent]
            | Some e => [ErrorEvent (exn_str e) (lit "generation_error")]
            end
      end
  | _, _ =>
      [ErrorEvent (lit "No model loaded. Call load_model first.") (lit "model_error")]
  end.

Definition unload_model (self : engine Mdl Tok) : engine Mdl Tok * outcome str :=
  let self := Engine None None None in
  match gc_collect with
  | Ok _ => (self, Success (lit "Model unloaded successfully"))
  | Raise e => (self, Failure (exn_str e) (lit "unload_error"))
  end.

End InferenceEngine.

(** ** Submitting requests to a store

    [submit write requests c] sends the requests one after the other through
    the capability [write], stopping at the first call that raises; the
    writes made before stay. *)
Fixpoint submit {C E} (write : C -> add_request E -> result C)
    (requests : list (add_request E)) (c : C) : C * result unit :=
  match requests with
  | [] => (c, Ok tt)
  | request :: rest =>
      match write c request with
      | Ok c' => submit write rest c'
      | Raise e => (c, Raise e)
      end
  end.

(** The requests [index_file] builds for a file whose chunks and embeddings
    are known. *)
Definition chunk_requests {E} (file_path : path) (chunks : list str)
    (embeddings : list E) : list (add_request E) :=
  map (fun '(i, (chunk, embedding)) =>
         chunk_request file_path (len chunks) i chunk embedding)
      (enumerate (combine chunks embeddings)).

(** ** A keyed store

    A collection as a finite map from ids to records, to run the indexer on.
    What [add] does with an id that is already stored is the store's choice:
    leave the stored record, refuse the call, or replace the record.
    [upsert] always replaces. *)

Record stored (E : Type) := Stored {
  stored_embedding : E;
  stored_document : str;
  stored_metadata : metadata
}.
Arguments Stored {E} stored_embedding stored_document stored_metadata.
Arguments stored_embedding {E} s.
Arguments stored_document {E} s.
Arguments stored_metadata {E} s.

Inductive duplicate_policy :=
  | IgnoreDuplicate
  | RejectDuplicate
  | ReplaceDuplicate.

(** The rows of a request: its parallel lists zipped. *)
Definition request_rows {E} (request : add_request E) : list (str * stored E) :=
  map (fun '(id, (e, (d, m))) => (id, Stored e d m))
      (combine (ids request)
         (combine (embeddings request)
            (combine (documents request) (metadatas request)))).

Definition replace_row {E} (c : gmap str (stored E)) (row : str * stored E)
    : gmap str (stored E) :=
  <[row.1 := row.2]> c.

Definition insert_row {E} (c : gmap str (stored E)) (row : str * stored E)
    : gmap str (stored E) :=
  match c !! row.1 with
  | Some _ => c
  | None => <[row.1 := row.2]> c
  end.

Definition keyed_upsert {E} (c : gmap str (stored E)) (request : add_request E)
    : result (gmap str (stored E)) :=
  Ok (fold_left replace_row (request_rows request) c).

Definition keyed_add {E} (policy : duplicate_policy)
    (c : gmap str (stored E)) (request : add_request E)
    : result (gmap str (stored E)) :=
  match policy with
  | ReplaceDuplicate => keyed_upsert c request
  | IgnoreDuplicate => Ok (fold_left insert_row (request_rows request) c)
  | RejectDuplicate =>
      if existsb (fun id => bool_decide (is_Some (c !! id))) (ids request)
      then Raise (Exception (lit "ID already exists"))
      else keyed_upsert c request
  end.

Definition keyed_collection (E : Type) (policy : duplicate_policy)
    : Collection (gmap str (stored E)) E :=
  {| collection_add := keyed_add policy; collection_upsert := keyed_upsert |}.

(** [count()] and [get()['metadatas']] of the keyed store. *)
Definition keyed_count {E} (c : gmap str (stored E)) : result Z :=
  Ok (Z.of_nat (size c)).

Definition keyed_get {E} (c : gmap str (stored E)) : result (option (list metadata)) :=
  Ok (Some (map (fun row => stored_metadata row.2) (map_to_list c))).

(** ** Collaborators for running the code on concrete inputs *)

(** An embedding model that returns one (empty) vector per text. *)
Definition unit_embeddings (texts : list str) : result (list unit) :=
  Ok (map (fun _ => tt) texts).

(** A file system holding regular files only, given as (path, name, suffix,
    content) under one directory. *)
Definition path_of (entry : str * str * str * result str) : path :=
  let '(p, n, s, _) := entry in Path p n s.

Definition flat_directory (directory : str)
    (files : list (str * str * str * result str)) : file_system :=
  let lookup_file p :=
    List.find (fun entry => bool_decide (path_str (path_of entry) = p)) files in
  {| expanduser := fun s =>
       match lookup_file s with
       | Some entry => path_of entry
       | None => Path s s []
       end;
     path_exists := fun p =>
       bool_decide (path_str p = directory) || truthy (option_list (lookup_file (path_str p)));
     is_file := fun p => Ok (truthy (option_list (lookup_file (path_str p))));
     read_text := fun p =>
       match lookup_file (path_str p) with
       | Some (_, _, _, content) => content
       | None => Raise (Exception (lit "No such file or directory"))
       end;
     rglob := fun p =>
       if bool_decide (path_str p = directory) then (map path_of files, None)
       else ([], None) |}.

(** The directory of the scenario: one empty file and one valid file. *)
Definition scenario_directory : file_system :=
  flat_directory (lit "/src")
    [ (lit "/src/empty.py", lit "empty.py", lit ".py", Ok []);
      (lit "/src/valid.py", lit "valid.py", lit ".py", Ok (lit "x = 1")) ].

(** The store of the scenarios: a keyed store, empty at first. *)
Definition scenario_store : Collection (gmap str (stored unit)) unit :=
  keyed_collection unit IgnoreDuplicate.

Definition empty_world : world (gmap str (stored unit)) := World ∅ [].

(** The same path with an old and with a new content. *)
Definition one_file (content : str) : file_system :=
  flat_directory (lit "/src")
    [ (lit "/src/a.py", lit "a.py", lit ".py", Ok content) ].

(** A store that answers every query with the same two hits: the only
    chunks of two small files. *)
Definition two_hits : list (hit unit) :=
  [ Hit (chunk_id (lit "/src/a.py") 0) (lit "x = 1")
        (Metadata (lit "/src/a.py") (lit "a.py") (lit ".py") 0 1) None;
    Hit (chunk_id (lit "/src/b.py") 0) (lit "y = 2")
        (Metadata (lit "/src/b.py") (lit "b.py") (lit ".py") 0 1) None ].

Definition two_hits_store {C} (c : C) (query_embeddings : list unit) (n_results : Z)
    (filter : option where_filter) : result (query_result unit) :=
  Ok (QueryResult (map hit_id two_hits) (map document two_hits)
                  (map hit_metadata two_hits) None).

(** A store that answers with one row per extension of the filter that it
    is given, and with no row when it is given no filter. *)
Definition extension_echo_store {C} (c : C) (query_embeddings : list unit)
    (n_results : Z) (filter : option where_filter) : result (query_result unit) :=
  match filter with
  | Some (FileExtensionIn file_extensions) =>
      Ok (QueryResult file_extensions file_extensions
            (map (fun e => Metadata e e e 0 1) file_extensions)
            (Some (map (fun _ => tt) file_extensions)))
  | None => Ok (QueryResult [] [] [] None)
  end.

(** A store that answers with two ids and one document. *)
Definition short_answer_store {C} (c : C) (query_embeddings : list unit)
    (n_results : Z) (filter : option where_filter) : result (query_result unit) :=
  Ok (QueryResult (map hit_id two_hits) [lit "x = 1"]
                  (map hit_metadata two_hits) None).

(** A store whose query fails. *)
Definition unavailable_store {C} (c : C) (query_embeddings : list unit) (n_results : Z)
    (filter : option where_filter) : result (query_result unit) :=
  Raise (Exception (lit "store unavailable")).

(** A store with no record. *)
Definition empty_store {C} (c : C) (query_embeddings : list unit) (n_results : Z)
    (filter : option where_filter) : result (query_result unit) :=
  Ok (QueryResult [] [] [] None).

(** A text with a line of one long word between two short lines. *)
Definition long_word_text : str :=
  lit "ab cd" ++ [newline] ++ lit "unsplittable" ++ [newline] ++ lit "x".

(** A text of four short lines, the third one empty. *)
Definition short_lines_text : str :=
  lit "def f():" ++ [newline] ++ lit "  return 1" ++ [newline] ++ [newline]
    ++ lit "x = f()".

(** The document of the chunking scenario: three lines of 1000, 1000 and
    500 characters. *)
Definition line1 : str := repeat "a"%char 1000.
Definition line2 : str := repeat "b"%char 1000.
Definition line3 : str := repeat "c"%char 500.

(** Three hits with the texts ["short"], a long one and ["x"]. *)
Definition hit_with (text : str) : hit unit :=
  Hit (lit "id") text (Metadata (lit "/src/a.py") (lit "a.py") (lit ".py") 0 1) None.

Definition three_hits : list (hit unit) :=
  [hit_with (lit "short"); hit_with (repeat "y"%char 100); hit_with (lit "x")].

(** Two paths with the same MD5 digest (a collision of printable
    characters, due to M. Stevens). *)
Definition colliding_path_A : str :=
  lit "TEXTCOLLBYfGiJUETHQ4hAcKSMd5zYpgqf1YRDhkmxHkhPWptrkoyz28wnI9V0aHeAuaKnak".
Definition colliding_path_E : str :=
  lit "TEXTCOLLBYfGiJUETHQ4hEcKSMd5zYpgqf1YRDhkmxHkhPWptrkoyz28wnI9V0aHeAuaKnak".

(** The file [/src/a.py] indexed with the content [x = 1], then indexed
    again with the content [x = 2], on a keyed store with the given policy
    for [add]. *)
Definition reindex (policy : duplicate_policy)
    : world (gmap str (stored unit)) * result (outcome file_report) :=
  index_file (Collection0 := keyed_collection unit policy)
    (one_file (lit "x = 2")) unit_embeddings (lit "/src/a.py")
    (index_file (Collection0 := keyed_collection unit policy)
       (one_file (lit "x = 1")) unit_embeddings (lit "/src/a.py") empty_world).1.

(** A file of two lines of 600 characters: two chunks. *)
Definition two_chunk_content : str :=
  repeat "a"%char 600 ++ [newline] ++ repeat "b"%char 600.

Definition big_file : file_system :=
  flat_directory (lit "/src")
    [ (lit "/src/big.py", lit "big.py", lit ".py", Ok two_chunk_content) ].

(** The same path with a content of one chunk. *)
Definition shortened_file : file_system :=
  flat_directory (lit "/src")
    [ (lit "/src/big.py", lit "big.py", lit ".py", Ok (lit "x = 2")) ].

(** The file [/src/big.py] indexed with its two chunks on an empty keyed
    store whose [add] replaces. *)
Definition big_file_indexed : world (gmap str (stored unit)) :=
  (index_file (Collection0 := keyed_collection unit ReplaceDuplicate)
     big_file unit_embeddings (lit "/src/big.py") empty_world).1.

(** A store that already holds a record under the id of the second chunk
    of [/src/big.py]. *)
Definition holding_second_chunk : world (gmap str (stored unit)) :=
  World {[ chunk_id (lit "/src/big.py") 1
           := Stored tt (lit "old") (Metadata (lit "/src/big.py") (lit "big.py")
                                              (lit ".py") 1 2) ]} [].

(** A directory with a file whose name holds the excluded pattern
    ["test"]. *)
Definition latest_file : path := Path (lit "/src/latest.py") (lit "latest.py") (lit ".py").

Definition latest_directory : file_system :=
  flat_directory (lit "/src")
    [ (lit "/src/latest.py", lit "latest.py", lit ".py", Ok (lit "x = 1")) ].

(** A directory that lists a valid file, then an entry on which [is_file]
    raises, then another file. *)
Definition locked_directory : file_system :=
  let fs := flat_directory (lit "/src")
              [ (lit "/src/valid.py", lit "valid.py", lit ".py", Ok (lit "x = 1"));
                (lit "/src/z.py", lit "z.py", lit ".py", Ok (lit "z = 0")) ] in
  {| expanduser := expanduser fs;
     path_exists := path_exists fs;
     is_file := fun p =>
       if bool_decide (path_str p = lit "/src/locked")
       then Raise (Exception (lit "[Errno 13] Permission denied: '/src/locked'"))
       else is_file fs p;
     read_text := read_text fs;
     rglob := fun p =>
       if bool_decide (path_str p = lit "/src")
       then ([ Path (lit "/src/valid.py") (lit "valid.py") (lit ".py");
               Path (lit "/src/locked") (lit "locked") [];
               Path (lit "/src/z.py") (lit "z.py") (lit ".py") ], None)
       else ([], None) |}.



(** A model directory, a loader that succeeds and one that raises, and a
    generator that yields two strings. *)
Definition model_directory : file_system := flat_directory (lit "/models/m") [].

(** The file system once [/models/m] has been removed. *)
Definition model_removed : file_system := flat_directory (lit "/models") [].

Definition unit_load (model_path : str) : result (unit * unit) := Ok (tt, tt).

Definition failing_load (model_path : str) : result (unit * unit) :=
  Raise (Exception (lit "out of memory")).

Definition two_tokens (m t : unit) (prompt : str) (max_tokens : Z)
    : result (list str * option exn) :=
  Ok ([lit "Hello"; lit " world"], None).

(** * Vocabulary of the properties *)

(** The words of [s.split()] are not empty and hold no whitespace. *)
Definition is_word (w : str) : Prop :=
  w <> [] /\ forallb (fun c => negb (isspace c)) w = true.

Section ChunkInvariants.

Variable max_chunk_size : Z.

(** The lines of the text being chunked. *)
Variable lines : list str.

(** A chunk is within the limit, or it is one word of one line of the
    text and longer than the limit. *)
Definition bounded_or_word (c : str) : Prop :=
  len c <= max_chunk_size \/
  (max_chunk_size < len c /\ is_word c /\
   exists line, In line lines /\ In c (split_whitespace line)).

(** Invariant of the loop over the words of [line]. *)
Definition wrapper_ok (line : str) (w : wrapper) : Prop :=
  Forall bounded_or_word (w_chunks w) /\
  ((len (join [space] (word_chunk w)) <= word_size w <= max_chunk_size) \/
   (exists word, word_chunk w = [word] /\ word_size w = len word /\
                 max_chunk_size < len word /\ is_word word /\
                 In line lines /\ In word (split_whitespace line))).

(** Invariant of the loop over the lines. *)
Definition chunker_ok (st : chunker) : Prop :=
  Forall bounded_or_word (chunks st) /\
  len (join [newline] (current_chunk st)) <= current_size st <= max_chunk_size.

End ChunkInvariants.



(** Total length of the formatted entries of a list of hits. *)
Definition entries_length {D} (results : list (hit D)) : Z :=
  fold_right (fun result total => len (format_entry result) + total) 0 results.

(** The two ways the search of [get_context_for_query] can fail in a
    collaborator: the embedding of the query raises, or the query of the
    store raises. *)
Definition search_fails {C E D}
    (embedding_model_encode : list str -> result (list E))
    (collection_query :
       C -> list E -> Z -> option where_filter -> result (query_result D))
    (query : str) (n_results : Z) (w : world C) (e : exn) : Prop :=
  embedding_model_encode [query] = Raise e \/
  exists v vs, embedding_model_encode [query] = Ok (v :: vs) /\
               collection_query (collection w) [v] n_results None = Raise e.

(** [is_file] answers for a path when it does not raise; the path is a
    regular file when the answer is [True]. *)
Definition answers (fs : file_system) (p : path) : Prop :=
  exists regular, is_file fs p = Ok regular.

Definition is_regular (fs : file_system) (p : path) : bool :=
  match is_file fs p with
  | Ok regular => regular
  | Raise _ => false
  end.

(** A file is selected when it is a regular file, its suffix is one of the
    extensions and its path holds none of the excluded patterns. *)
Definition passes_filters (extensions exclude_patterns : list str) (p : path) : bool :=
  bool_decide (suffix p ∈ extensions)
  && negb (existsb (fun pattern => contains pattern (path_str p)) exclude_patterns).

Definition selected (fs : file_system) (extensions exclude_patterns : list str)
    (p : path) : bool :=
  is_regular fs p && passes_filters extensions exclude_patterns p.

Definition filtered_out (fs : file_system) (extensions exclude_patterns : list str)
    (p : path) : bool :=
  is_regular fs p && negb (passes_filters extensions exclude_patterns p).

(** The claim C9 as a property of a store and its collaborators: the
    collection after [index_file] is the one that submitting the requests
    through [collection_upsert] gives. *)
Definition submits_by_upsert {C E} `{!Collection C E}
    (fs : file_system) (embedding_model_encode : list str -> result (list E)) : Prop :=
  forall file_path w content embeddings,
    let p := expanduser fs file_path in
    let chunks := _split_into_chunks content 1000 in
    path_exists fs p = true ->
    read_text fs p = Ok content ->
    strip content <> [] ->
    embedding_model_encode chunks = Ok embeddings ->
    collection (index_file fs embedding_model_encode file_path w).1
    = (submit collection_upsert (chunk_requests p chunks embeddings) (collection w)).1.

(** The count of a progress line. *)
Definition progress_count (e : event) : option Z :=
  match e with
  | Progress n _ => Some n
  | Warning _ => None
  end.

(** The events that end a generation. *)
Definition is_terminal (e : generation_event) : bool :=
  match e with
  | DoneEvent | ErrorEvent _ _ => true
  | TokenEvent _ | CompleteEvent _ => false
  end.

Definition is_token (e : generation_event) : bool :=
  match e with
  | TokenEvent _ => true
  | _ => false
  end.

(** The three fields of an engine are set together or not at all. *)
Definition loaded_together {Mdl Tok : Type} (self : engine Mdl Tok) : Prop :=
  match model self, tokenizer self, model_path self with
  | Some _, Some _, Some _ => True
  | None, None, None => True
  | _, _, _ => False
  end.

(** * Properties *)

(** Closed goals are decided by evaluation, one conjunct at a time. *)
Ltac evaluate :=
  intros; repeat match goal with |- _ /\ _ => split end; vm_compute; reflexivity.

(** ** Strings *)

Lemma len_nil {A} : len (@nil A) = 0.
Proof. reflexivity. Qed.

Lemma len_cons {A} (x : A) l : len (x :: l) = len l + 1.
Proof. unfold len. simpl length. lia. Qed.

Lemma len_app {A} (l1 l2 : list A) : len (l1 ++ l2) = len l1 + len l2.
Proof. unfold len. rewrite length_app. lia. Qed.

Lemma len_nonneg {A} (l : list A) : 0 <= len l.
Proof. unfold len. lia. Qed.

Lemma truthy_true {A} (l : list A) : truthy l = true <-> l <> [].
Proof. destruct l; simpl; split; congruence. Qed.

Lemma join_snoc sep (parts : list str) (p : str) :
  parts <> [] -> join sep (parts ++ [p]) = join sep parts ++ sep ++ p.
Proof.
  induction parts as [|q parts IH]; [congruence|intros _].
  destruct parts as [|q' parts]; [reflexivity|].
  change (join sep ((q :: q' :: parts) ++ [p]))
    with (q ++ sep ++ join sep ((q' :: parts) ++ [p])).
  rewrite IH by congruence.
  change (join sep (q :: q' :: parts)) with (q ++ sep ++ join sep (q' :: parts)).
  now rewrite <- !app_assoc.
Qed.


Lemma len_join_snoc sep (parts : list str) (p : str) :
  len (join sep (parts ++ [p])) <= len (join sep parts) + len sep + len p.
Proof.
  destruct parts as [|q parts].
  - simpl. pose proof (len_nonneg sep). rewrite len_nil. lia.
  - rewrite join_snoc by congruence. rewrite !len_app. lia.
Qed.

Lemma split_on_nonempty sep s : split_on sep s <> [].
Proof.
  destruct s as [|c s]; simpl; [congruence|].
  destruct (Ascii.eqb c sep); [congruence|].
  destruct (split_on sep s); congruence.
Qed.

(** [sep.join(s.split(sep)) == s] *)
Lemma join_split_on sep s : join [sep] (split_on sep s) = s.
Proof.
  induction s as [|c s IH]; [reflexivity|].
  simpl split_on. destruct (Ascii.eqb_spec c sep) as [->|Hne].
  - pose proof (split_on_nonempty sep s) as Hn.
    destruct (split_on sep s) as [|p ps]; [congruence|].
    change (join [sep] ([] :: p :: ps)) with ([] ++ [sep] ++ join [sep] (p :: ps)).
    rewrite IH. reflexivity.
  - destruct (split_on sep s) as [|p ps] eqn:Hs.
    + now destruct (split_on_nonempty sep s).
    + destruct ps as [|p' ps]; simpl in *; now rewrite <- IH.
Qed.

Lemma split_from_words s : forall word,
  forallb (fun c => negb (isspace c)) word = true ->
  Forall is_word (split_from word s).
Proof.
  induction s as [|c s IH]; intros word Hw; simpl.
  - destruct word; constructor; [split; [congruence|assumption]|constructor].
  - destruct (isspace c) eqn:Hc.
    + destruct word as [|a word]; [now apply IH|].
      constructor; [split; [congruence|assumption]|now apply IH].
    + apply IH. rewrite forallb_app, Hw. simpl. now rewrite Hc.
Qed.

Lemma split_whitespace_words s : Forall is_word (split_whitespace s).
Proof. now apply split_from_words. Qed.

(** The Python operations on some inputs. *)
Example split_whitespace_example :
  split_whitespace (lit "  a " ++ [ascii_of_nat 9] ++ lit " b" ++ [newline])
  = [lit "a"; lit "b"].
Proof. reflexivity. Qed.

Example strip_example : strip (lit " a b ") = lit "a b".
Proof. reflexivity. Qed.

Example split_on_example :
  split_on newline (lit "a" ++ [newline; newline] ++ lit "b" ++ [newline])
  = [lit "a"; []; lit "b"; []].
Proof. reflexivity. Qed.

(** The test suite of RFC 1321, and the digest of a path. *)
Example md5_test_suite :
  MD5.hexdigest (str_encode []) = lit "d41d8cd98f00b204e9800998ecf8427e" /\
  MD5.hexdigest (str_encode (lit "a")) = lit "0cc175b9c0f1b6a831c399e269772661" /\
  MD5.hexdigest (str_encode (lit "abc")) = lit "900150983cd24fb0d6963f7d28e17f72" /\
  MD5.hexdigest (str_encode (lit "message digest"))
    = lit "f96b697d7cb7938d525a2f31aaf161d0" /\
  MD5.hexdigest (str_encode (lit "abcdefghijklmnopqrstuvwxyz"))
    = lit "c3fcd3d76192e4007dfb496cca67e13b" /\
  file_id (lit "/src/a.py") = lit "cb4ac99ecb1030bc4434f8dc09dc3a0a".
Proof. evaluate. Qed.

(** ** Chunker *)

Section ChunkSizes.

Variable max_chunk_size : Z.
Hypothesis max_nonneg : 0 <= max_chunk_size.

(** The lines of the text being chunked. *)
Variable lines : list str.

Lemma wrapper_flush_ok line w :
  wrapper_ok max_chunk_size lines line w ->
  bounded_or_word max_chunk_size lines (join [space] (word_chunk w)).
Proof.
  intros [_ [Hsz | (word & -> & _ & Hlong & Hword & Hline & Hin)]].
  - left. lia.
  - right. simpl. eauto.
Qed.

Lemma wrap_word_ok line w word :
  In line lines -> In word (split_whitespace line) -> is_word word ->
  wrapper_ok max_chunk_size lines line w ->
  wrapper_ok max_chunk_size lines line (wrap_word max_chunk_size w word).
Proof.
  intros Hline Hin Hword Hw. pose proof (wrapper_flush_ok _ _ Hw) as Hflush.
  destruct Hw as [Hchunks Hbuf]. unfold wrap_word.
  destruct (Z.gtb_spec (word_size w + len word + 1) max_chunk_size) as [Hgt | Hle].
  - split; simpl.
    + apply Forall_app. split; [assumption|]. now constructor.
    + destruct (Z_le_gt_dec (len word) max_chunk_size).
      * left. lia.
      * right. exists word. repeat split; try tauto; try lia; apply Hword.
  - split; simpl; [assumption|]. left.
    pose proof (len_nonneg word).
    destruct Hbuf as [Hsz | (x & _ & Hx & Hlong & _)]; [|lia].
    pose proof (len_join_snoc [space] (word_chunk w) word) as Hj.
    change (len [space]) with 1 in Hj. lia.
Qed.

Lemma wrap_words_ok line : forall words w,
  In line lines ->
  (forall word, In word words -> In word (split_whitespace line)) ->
  wrapper_ok max_chunk_size lines line w ->
  wrapper_ok max_chunk_size lines line (fold_left (wrap_word max_chunk_size) words w).
Proof.
  induction words as [|word words IH]; intros w Hline Hsub Hw; [assumption|].
  simpl. apply IH; [assumption|intros; apply Hsub; now right|].
  apply wrap_word_ok; try assumption; [apply Hsub; now left|].
  pose proof (split_whitespace_words line) as Hall.
  rewrite List.Forall_forall in Hall. apply Hall, Hsub. now left.
Qed.

Lemma chunker_flush_ok st :
  chunker_ok max_chunk_size lines st ->
  bounded_or_word max_chunk_size lines (join [newline] (current_chunk st)).
Proof. intros [_ Hsz]. left. lia. Qed.

Lemma split_long_line_ok st line :
  In line lines -> chunker_ok max_chunk_size lines st ->
  chunker_ok max_chunk_size lines (split_long_line max_chunk_size st line).
Proof.
  intros Hline Hst. pose proof (chunker_flush_ok _ Hst) as Hflush.
  unfold split_long_line.
  set (st1 := if truthy (current_chunk st) then _ else st).
  assert (Hst1 : chunker_ok max_chunk_size lines st1).
  { subst st1. destruct (truthy (current_chunk st)); [|assumption].
    destruct Hst as [Hchunks _]. split; simpl; [|rewrite len_nil; lia].
    apply Forall_app. split; [assumption|now constructor]. }
  destruct Hst1 as [Hchunks1 Hsize1].
  pose proof (wrap_words_ok line (split_whitespace line) (Wrapper (chunks st1) [] 0)
                Hline (fun _ H => H)) as Hw.
  specialize (Hw ltac:(split; [assumption|left; simpl; rewrite len_nil; lia])).
  pose proof (wrapper_flush_ok _ _ Hw) as Hlast. destruct Hw as [Hwc _].
  split; simpl; [|assumption].
  destruct (truthy (word_chunk _)); [|assumption].
  apply Forall_app. split; [assumption|now constructor].
Qed.

Lemma chunk_line_ok st line :
  In line lines -> chunker_ok max_chunk_size lines st ->
  chunker_ok max_chunk_size lines (chunk_line max_chunk_size st line).
Proof.
  intros Hline Hst. unfold chunk_line.
  destruct (Z.gtb_spec (len line) max_chunk_size) as [Hlong | Hshort].
  { now apply split_long_line_ok. }
  pose proof (chunker_flush_ok _ Hst) as Hflush. destruct Hst as [Hchunks Hsz].
  destruct (Z.gtb_spec (current_size st + len line + 1) max_chunk_size).
  - split; simpl; [|lia]. apply Forall_app. split; [assumption|now constructor].
  - split; simpl; [assumption|].
    pose proof (len_join_snoc [newline] (current_chunk st) line) as Hj.
    change (len [newline]) with 1 in Hj. lia.
Qed.

Lemma chunk_lines_ok : forall ls st,
  (forall line, In line ls -> In line lines) ->
  chunker_ok max_chunk_size lines st ->
  chunker_ok max_chunk_size lines (fold_left (chunk_line max_chunk_size) ls st).
Proof.
  induction ls as [|line ls IH]; intros st Hsub Hst; [assumption|].
  simpl. apply IH; [intros; apply Hsub; now right|].
  apply chunk_line_ok; [apply Hsub; now left|assumption].
Qed.

End ChunkSizes.

(** C7. For a text [T] and a limit [M > 0], every chunk of
    [_split_into_chunks T M] has at most [M] characters, unless it is a
    single word (a maximal run without whitespace) of one line of [T] that
    is itself longer than [M]. *)
Theorem chunks_bounded_or_single_word (text : str) (max_chunk_size : Z) :
  0 < max_chunk_size ->
  forall c, In c (_split_into_chunks text max_chunk_size) ->
    len c <= max_chunk_size \/
    (max_chunk_size < len c /\ is_word c /\
     exists line, In line (split_on newline text) /\ In c (split_whitespace line)).
Proof.
  intros HM c Hc.
  assert (Hnonneg : 0 <= max_chunk_size) by lia.
  pose proof (chunk_lines_ok max_chunk_size Hnonneg (split_on newline text)
                (split_on newline text) (Chunker [] [] 0) (fun _ H => H)) as Hok.
  specialize (Hok ltac:(split; [constructor|simpl; rewrite len_nil; lia])).
  pose proof (chunker_flush_ok _ _ _ Hok) as Hflush. destruct Hok as [Hchunks _].
  assert (Hall : Forall (bounded_or_word max_chunk_size (split_on newline text))
                   (_split_into_chunks text max_chunk_size)).
  { unfold _split_into_chunks. destruct (truthy (current_chunk _)); [|assumption].
    apply Forall_app. split; [assumption|now constructor]. }
  rewrite List.Forall_forall in Hall. exact (Hall c Hc).
Qed.

(** The theorem at a line of one long word between two short lines, for
    the chunk that is the long word. *)
Lemma chunks_bounded_or_single_word_witness :
  In (lit "unsplittable") (_split_into_chunks long_word_text 4) /\
  (len (lit "unsplittable") <= 4 \/
   (4 < len (lit "unsplittable") /\ is_word (lit "unsplittable") /\
    exists line,
      In line (split_on newline long_word_text) /\
      In (lit "unsplittable") (split_whitespace line))).
Proof.
  assert (Hin : In (lit "unsplittable") (_split_into_chunks long_word_text 4)).
  { vm_compute. do 3 right. left. reflexivity. }
  split; [exact Hin|].
  apply (chunks_bounded_or_single_word long_word_text 4); [lia|exact Hin].
Defined.

(** C6, as stated, fails: the empty string has one line, the empty line,
    which is buffered and flushed as one empty chunk. *)
Lemma chunk_empty_string_is_not_empty :
  _split_into_chunks [] 1000 <> [].
Proof. vm_compute. discriminate. Qed.

(** C6, amended. For every limit [M > 0], chunking the empty string
    returns exactly one chunk, the empty string. *)
Theorem chunk_empty_string (max_chunk_size : Z) :
  0 < max_chunk_size ->
  _split_into_chunks [] max_chunk_size = [[]].
Proof.
  intros Hpos.
  unfold _split_into_chunks. simpl fold_left. unfold chunk_line.
  change (len []) with 0. simpl current_size. rewrite !Z.gtb_ltb.
  destruct (Z.ltb_spec max_chunk_size (0 + 0 + 1)); [lia|].
  destruct (Z.ltb_spec max_chunk_size 0); [lia|reflexivity].
Qed.

(** The theorem at the limit that [index_file] uses. *)
Lemma chunk_empty_string_witness :
  0 < 1000 /\ _split_into_chunks [] 1000 = [[]].
Proof.
  assert (Hpos : 0 < 1000) by reflexivity.
  split; [exact Hpos|]. exact (chunk_empty_string 1000 Hpos).
Defined.

(** C4. The code on the document of the scenario: the first line fills the
    limit exactly, so the buffer, still empty, is flushed before it, and the
    result starts with an empty chunk; four chunks, not three. *)
Theorem three_line_document_chunks :
  length line1 = 1000%nat /\ length line2 = 1000%nat /\ length line3 = 500%nat /\
  _split_into_chunks (line1 ++ [newline] ++ line2 ++ [newline] ++ line3) 1000
    = [[]; line1; line2; line3].
Proof. evaluate. Qed.

(** *** Rejoining the chunks *)

Section ShortLines.

Variable max_chunk_size : Z.





End ShortLines.

(** *** The words of the chunks *)

Lemma split_from_nil word : split_from word [] = match word with [] => [] | _ => [word] end.
Proof. reflexivity. Qed.

(** A whitespace character ends the word being scanned. *)
Lemma split_from_space (a : str) (c : ascii) (b : str) :
  isspace c = true ->
  forall word, split_from word (a ++ c :: b) = split_from word a ++ split_from [] b.
Proof.
  intros Hc. induction a as [|x a IH]; intros word; simpl.
  - rewrite Hc. now destruct word.
  - destruct (isspace x); [|apply IH].
    destruct word; rewrite IH; reflexivity.
Qed.

(** Characters that are not whitespace extend the word being scanned. *)
Lemma split_from_word (w rest : str) :
  forallb (fun c => negb (isspace c)) w = true ->
  forall word, split_from word (w ++ rest) = split_from (word ++ w) rest.
Proof.
  induction w as [|x w IH]; intros Hw word; simpl.
  - now rewrite app_nil_r.
  - simpl in Hw. apply andb_prop in Hw as [Hx Hw].
    apply negb_true_iff in Hx. rewrite Hx, IH by assumption.
    now rewrite <- app_assoc.
Qed.

Lemma split_whitespace_word w : is_word w -> split_whitespace w = [w].
Proof.
  intros [Hne Hw]. unfold split_whitespace.
  rewrite <- (app_nil_r w) at 1. rewrite split_from_word by assumption.
  simpl. now destruct w.
Qed.

Lemma split_whitespace_join (sep : ascii) (parts : list str) :
  isspace sep = true ->
  split_whitespace (join [sep] parts) = flat_map split_whitespace parts.
Proof.
  intros Hsep. induction parts as [|p parts IH]; [reflexivity|].
  destruct parts as [|q parts].
  - simpl. now rewrite app_nil_r.
  - change (join [sep] (p :: q :: parts)) with (p ++ sep :: join [sep] (q :: parts)).
    unfold split_whitespace at 1. rewrite split_from_space by assumption.
    fold (split_whitespace p). fold (split_whitespace (join [sep] (q :: parts))).
    rewrite IH. reflexivity.
Qed.

Lemma split_whitespace_join_words (words : list str) :
  Forall is_word words -> split_whitespace (join [space] words) = words.
Proof.
  intros Hwords. rewrite split_whitespace_join by reflexivity.
  induction Hwords as [|w words Hw _ IH]; [reflexivity|].
  simpl. now rewrite split_whitespace_word, IH.
Qed.

(** The loop over the words keeps the words: those of the chunks, then
    those of the buffer, are those met so far. *)
Lemma wrap_word_keeps max_chunk_size w word :
  is_word word -> Forall is_word (word_chunk w) ->
  let w' := wrap_word max_chunk_size w word in
  Forall is_word (word_chunk w') /\
  flat_map split_whitespace (w_chunks w') ++ word_chunk w'
  = (flat_map split_whitespace (w_chunks w) ++ word_chunk w) ++ [word].
Proof.
  intros Hword Hbuf. unfold wrap_word.
  destruct (_ >? max_chunk_size); cbn [w_chunks word_chunk].
  - split; [constructor; [assumption|constructor]|].
    rewrite flat_map_app. cbn [flat_map].
    rewrite split_whitespace_join_words, app_nil_r by assumption. reflexivity.
  - split; [|now rewrite app_assoc].
    apply Forall_app. split; [assumption|constructor; [assumption|constructor]].
Qed.

Lemma wrap_words_keep max_chunk_size : forall words w,
  Forall is_word words -> Forall is_word (word_chunk w) ->
  let w' := fold_left (wrap_word max_chunk_size) words w in
  Forall is_word (word_chunk w') /\
  flat_map split_whitespace (w_chunks w') ++ word_chunk w'
  = (flat_map split_whitespace (w_chunks w) ++ word_chunk w) ++ words.
Proof.
  induction words as [|word words IH]; intros w Hwords Hbuf.
  - cbn [fold_left]. now rewrite app_nil_r.
  - apply List.Forall_cons_iff in Hwords as [Hword Hwords].
    destruct (wrap_word_keeps max_chunk_size w word Hword Hbuf) as [Hbuf' Hstep].
    destruct (IH _ Hwords Hbuf') as [Hbuf'' Hrest].
    cbn [fold_left]. split; [assumption|].
    rewrite Hrest, Hstep. now rewrite <- app_assoc.
Qed.

(** The words that a state of the outer loop stands for. *)
Lemma flush_keeps (cs buffer : list str) :
  flat_map split_whitespace
    (if truthy buffer then cs ++ [join [newline] buffer] else cs)
  = flat_map split_whitespace cs ++ flat_map split_whitespace buffer.
Proof.
  destruct buffer as [|l ls]; cbn [truthy]; [now rewrite app_nil_r|].
  rewrite flat_map_app. cbn [flat_map].
  rewrite split_whitespace_join by reflexivity. now rewrite app_nil_r.
Qed.

(** One line keeps the words: those of the chunks, then those of the lines
    in the buffer, then those of the line. *)
Lemma chunk_line_keeps max_chunk_size st line :
  let st' := chunk_line max_chunk_size st line in
  flat_map split_whitespace (chunks st') ++ flat_map split_whitespace (current_chunk st')
  = (flat_map split_whitespace (chunks st)
       ++ flat_map split_whitespace (current_chunk st)) ++ split_whitespace line.
Proof.
  unfold chunk_line. destruct (len line >? max_chunk_size).
  - unfold split_long_line.
    set (st1 := if truthy (current_chunk st) then _ else st).
    assert (Hst1 : flat_map split_whitespace (chunks st1)
                   = flat_map split_whitespace (chunks st)
                       ++ flat_map split_whitespace (current_chunk st)
                   /\ current_chunk st1 = []).
    { subst st1. rewrite <- flush_keeps.
      destruct (current_chunk st) eqn:Hbuf; cbn [truthy chunks current_chunk];
        now split. }
    destruct Hst1 as [Hst1 Hempty].
    destruct (wrap_words_keep max_chunk_size (split_whitespace line)
                (Wrapper (chunks st1) [] 0) (split_whitespace_words line)
                ltac:(constructor)) as [Hbuf Hkeep].
    cbn [w_chunks word_chunk] in Hkeep. rewrite app_nil_r, Hst1 in Hkeep.
    cbv zeta. cbn [chunks current_chunk]. rewrite Hempty. cbn [flat_map].
    rewrite app_nil_r, <- Hkeep.
    destruct (word_chunk _) as [|x xs] eqn:Hwc; cbn [truthy].
    + now rewrite app_nil_r.
    + rewrite flat_map_app. cbn [flat_map].
      rewrite split_whitespace_join_words, app_nil_r by assumption. reflexivity.
  - destruct (_ >? max_chunk_size); cbv zeta; cbn [chunks current_chunk].
    +       rewrite flat_map_app. cbn [flat_map].
      rewrite split_whitespace_join by reflexivity. now rewrite !app_nil_r.
    + rewrite flat_map_app. cbn [flat_map]. now rewrite app_nil_r, app_assoc.
Qed.

Lemma chunk_lines_keep max_chunk_size : forall ls st,
  let st' := fold_left (chunk_line max_chunk_size) ls st in
  flat_map split_whitespace (chunks st') ++ flat_map split_whitespace (current_chunk st')
  = (flat_map split_whitespace (chunks st)
       ++ flat_map split_whitespace (current_chunk st)) ++ flat_map split_whitespace ls.
Proof.
  induction ls as [|line ls IH]; intros st; cbn [fold_left flat_map].
  - now rewrite app_nil_r.
  - rewrite IH, chunk_line_keeps. now rewrite <- app_assoc.
Qed.

(** The words of the chunks, in order, are the words of the text. *)
Lemma chunks_keep_words text max_chunk_size :
  flat_map split_whitespace (_split_into_chunks text max_chunk_size)
  = split_whitespace text.
Proof.
  rewrite <- (join_split_on newline text) at 2.
  rewrite split_whitespace_join by reflexivity.
  unfold _split_into_chunks. cbv zeta. rewrite flush_keeps.
  now rewrite chunk_lines_keep.
Qed.




(** ** Context assembly *)

(** The loop from any state: it appends the entries of the first [k] hits,
    where [k] is the first position whose entry does not fit. *)
Lemma collect_context_parts_prefix {D} max_context_length :
  forall (results : list (hit D)) context_parts current_length,
  exists k : nat,
    (k <= length results)%nat /\
    collect_context_parts results context_parts current_length max_context_length
      = context_parts ++ map format_entry (firstn k results) /\
    (forall j, (1 <= j <= k)%nat ->
       current_length + entries_length (firstn j results) <= max_context_length) /\
    (forall result, results !! k = Some result ->
       current_length + entries_length (firstn k results) + len (format_entry result)
         > max_context_length).
Proof.
  intros hits. induction hits as [|r rest IH]; intros parts cur.
  - exists 0%nat. simpl. rewrite app_nil_r. repeat split; [lia|intros; lia|].
    intros result Hr. discriminate.
  - simpl collect_context_parts.
    destruct (Z.gtb_spec (cur + len (format_entry r)) max_context_length) as [Hgt | Hle].
    + exists 0%nat. simpl. rewrite app_nil_r. repeat split; [lia|intros; lia|].
      intros result [= <-]. lia.
    + destruct (IH (parts ++ [format_entry r]) (cur + len (format_entry r)))
        as (k & Hk & Heq & Hfit & Hstop).
      exists (S k). simpl. repeat split.
      * lia.
      * rewrite Heq, <- app_assoc. reflexivity.
      * intros [|j] Hj; [lia|]. simpl.
        destruct j as [|j]; [simpl; lia|].
        specialize (Hfit (S j) ltac:(lia)). lia.
      * intros result Hr. specialize (Hstop result Hr). lia.
Qed.

(** After a search that succeeds, [get_context_for_query] returns the
    context assembled from its results. *)
Lemma get_context_for_query_success {C E D : Type}
    (embedding_model_encode : list str -> result (list E))
    (collection_query : C -> list E -> Z -> option where_filter -> result (query_result D))
    (query : str) (n_results max_context_length : Z) (w w' : world C)
    (report : search_report D) :
  search embedding_model_encode collection_query query n_results None w
    = (w', Ok (Success report)) ->
  get_context_for_query embedding_model_encode collection_query
    query n_results max_context_length w
  = (w', Ok (assemble_context (results report) max_context_length)).
Proof. intros Hsearch. unfold get_context_for_query, bind. now rewrite Hsearch. Qed.

(** C5. The entries accepted by context assembly are the entries of a
    prefix of the hits, in order: every shorter prefix fits the budget, and
    the hit after the prefix, if any, would exceed it (no later hit is
    looked at); the context is these entries joined by newlines.  No hits,
    or a first entry longer than the budget, give no entry and the empty
    context.  After a search that succeeds with these hits,
    [get_context_for_query] returns this context. *)
Theorem context_is_greedy_prefix {D} (hits : list (hit D)) (max_context_length : Z) :
  (exists k : nat,
     (k <= length hits)%nat /\
     collect_context_parts hits [] 0 max_context_length
       = map format_entry (firstn k hits) /\
     assemble_context hits max_context_length
       = join [newline] (map format_entry (firstn k hits)) /\
     (forall j, (1 <= j <= k)%nat ->
        entries_length (firstn j hits) <= max_context_length) /\
     (forall result, hits !! k = Some result ->
        entries_length (firstn k hits) + len (format_entry result)
          > max_context_length)) /\
  (hits = [] ->
     collect_context_parts hits [] 0 max_context_length = [] /\
     assemble_context hits max_context_length = []) /\
  (forall first rest, hits = first :: rest ->
     max_context_length < len (format_entry first) ->
     collect_context_parts hits [] 0 max_context_length = [] /\
     assemble_context hits max_context_length = []) /\
  (forall (C E : Type) (embedding_model_encode : list str -> result (list E))
          (collection_query :
             C -> list E -> Z -> option where_filter -> result (query_result D))
          (q : str) (n_results : Z) (w w' : world C) (report : search_report D),
     search embedding_model_encode collection_query q n_results None w
       = (w', Ok (Success report)) ->
     results report = hits ->
     get_context_for_query embedding_model_encode collection_query
       q n_results max_context_length w
     = (w', Ok (assemble_context hits max_context_length))).
Proof.
  split; [|split; [|split]].
  - destruct (collect_context_parts_prefix max_context_length hits [] 0)
      as (k & Hk & Heq & Hfit & Hstop).
    exists k. split; [assumption|]. split; [assumption|]. split; [|split].
    + unfold assemble_context. now rewrite Heq.
    + intros j Hj. specialize (Hfit j Hj). lia.
    + intros result Hr. specialize (Hstop result Hr). lia.
  - intros ->. split; reflexivity.
  - intros first rest -> Hlong. unfold assemble_context. simpl.
    destruct (Z.gtb_spec (0 + len (format_entry first)) max_context_length); [|lia].
    split; reflexivity.
  - intros C E enc qry q n_results w w' report Hsearch <-.
    now apply get_context_for_query_success.
Qed.

(** The theorem at three hits of which the second one does not fit: the
    third one, which would fit, is not taken, and the context is the entry
    of the first one. *)
Lemma context_is_greedy_prefix_witness :
  collect_context_parts three_hits [] 0 80 = [format_entry (hit_with (lit "short"))] /\
  assemble_context three_hits 80 = format_entry (hit_with (lit "short")) /\
  10 < len (format_entry (hit_with (lit "short"))) /\
  collect_context_parts three_hits [] 0 10 = [] /\
  assemble_context three_hits 10 = [].
Proof.
  assert (Hfirst80 :
            collect_context_parts three_hits [] 0 80
              = [format_entry (hit_with (lit "short"))] /\
            assemble_context three_hits 80 = format_entry (hit_with (lit "short"))).
  { destruct (context_is_greedy_prefix three_hits 80)
      as [(k & Hk & Heq & Hjoin & Hfit & Hstop) _].
    rewrite Heq, Hjoin. destruct k as [|[|k]].
    - specialize (Hstop (hit_with (lit "short")) eq_refl). vm_compute in Hstop.
      discriminate.
    - split; reflexivity.
    - specialize (Hfit 2%nat ltac:(lia)). vm_compute in Hfit. now destruct Hfit. }
  destruct Hfirst80 as [Hparts Hcontext].
  split; [exact Hparts|]. split; [exact Hcontext|].
  assert (Hlong : 10 < len (format_entry (hit_with (lit "short"))))
    by (vm_compute; reflexivity).
  split; [exact Hlong|].
  destruct (context_is_greedy_prefix three_hits 10) as (_ & _ & Hfirst & _).
  exact (Hfirst (hit_with (lit "short"))
           [hit_with (repeat "y"%char 100); hit_with (lit "x")] eq_refl Hlong).
Defined.

(** C2. The code on two hits whose entries are 33 characters each, with a
    budget of 66: both entries are accepted, since [current_length] counts
    the entries only, and the newline that joins them makes the returned
    string 67 characters long. *)
Theorem context_exceeds_max_context_length :
  map (fun h => len (format_entry h)) two_hits = [33; 33] /\
  assemble_context two_hits 66 = join [newline] (map format_entry two_hits) /\
  len (assemble_context two_hits 66) = 67 /\
  get_context_for_query unit_embeddings two_hits_store (lit "x") 3 66 (World tt [])
    = (World tt [], Ok (assemble_context two_hits 66)).
Proof. evaluate. Qed.

(** ** Retriever *)

Section FailedSearch.

Context {C E D : Type}.
Variable embedding_model_encode : list str -> result (list E).
Variable collection_query :
  C -> list E -> Z -> option where_filter -> result (query_result D).

Lemma search_fails_failure query n_results w e :
  search_fails embedding_model_encode collection_query query n_results w e ->
  search embedding_model_encode collection_query query n_results None w
    = (w, Ok (Failure (exn_str e) (lit "search_error"))).
Proof.
  unfold search, try_except, bind, lift, ret.
  intros [Henc | (v & vs & Henc & Hq)]; rewrite Henc; [reflexivity|].
  simpl. rewrite Hq. reflexivity.
Qed.

End FailedSearch.

(** C10. When the embedding of the query or the query of the store raises,
    [get_context_for_query] returns the empty string and leaves the state as
    it was; the error is not in the result.  A search that succeeds and of
    which no entry is accepted returns the same string: the two outcomes
    cannot be told apart. *)
Theorem failed_search_gives_empty_context {C E D : Type}
    (embedding_model_encode : list str -> result (list E))
    (collection_query : C -> list E -> Z -> option where_filter -> result (query_result D))
    (query : str) (n_results max_context_length : Z) (w : world C) (e : exn) :
  search_fails embedding_model_encode collection_query query n_results w e ->
  get_context_for_query embedding_model_encode collection_query
    query n_results max_context_length w = (w, Ok []) /\
  forall (E' D' : Type) (encode' : list str -> result (list E'))
         (query' : C -> list E' -> Z -> option where_filter -> result (query_result D'))
         (report : search_report D'),
    search encode' query' query n_results None w = (w, Ok (Success report)) ->
    collect_context_parts (results report) [] 0 max_context_length = [] ->
    get_context_for_query encode' query' query n_results max_context_length w
      = get_context_for_query embedding_model_encode collection_query
          query n_results max_context_length w.
Proof.
  intros Hfail.
  assert (Hempty : get_context_for_query embedding_model_encode collection_query
                     query n_results max_context_length w = (w, Ok [])).
  { unfold get_context_for_query, bind.
    rewrite (search_fails_failure _ _ _ _ _ _ Hfail). reflexivity. }
  split; [exact Hempty|].
  intros E' D' encode' query' report Hsearch Hnone. rewrite Hempty.
  unfold get_context_for_query, bind. rewrite Hsearch.
  unfold assemble_context. rewrite Hnone. reflexivity.
Qed.

(** The theorem at a store whose query raises, against a store with no
    record. *)
Lemma failed_search_gives_empty_context_witness :
  get_context_for_query unit_embeddings unavailable_store (lit "q") 3 4000 (World tt [])
    = (World tt [], Ok []) /\
  get_context_for_query unit_embeddings empty_store (lit "q") 3 4000 (World tt [])
    = get_context_for_query unit_embeddings unavailable_store (lit "q") 3 4000 (World tt []).
Proof.
  assert (Hfail : search_fails unit_embeddings (@unavailable_store unit)
                    (lit "q") 3 (World tt []) (Exception (lit "store unavailable"))).
  { right. exists tt, []. split; reflexivity. }
  destruct (failed_search_gives_empty_context unit_embeddings unavailable_store
              (lit "q") 3 4000 (World tt []) _ Hfail) as [Hempty Hsame].
  split; [exact Hempty|].
  apply (Hsame unit unit unit_embeddings empty_store (SearchReport (lit "q") [] 0));
    reflexivity.
Defined.

(** ** Chunk identity *)

Lemma decimal_inj i j : decimal i = decimal j -> i = j.
Proof.
  unfold decimal. intros Heq.
  apply (f_equal string_of_list_ascii) in Heq.
  rewrite !string_of_list_ascii_of_string in Heq.
  apply (f_equal NilEmpty.uint_of_string) in Heq.
  rewrite !NilEmpty.usu in Heq. injection Heq as Heq.
  now apply DecimalNat.Unsigned.to_uint_inj.
Qed.

Lemma digits_no_underscore d :
  ~ In "_"%char (list_ascii_of_string (NilEmpty.string_of_uint d)).
Proof.
  induction d; simpl; [tauto|..]; intros [Hc | Hin]; try discriminate; auto.
Qed.

Lemma decimal_no_underscore i : ~ In "_"%char (decimal i).
Proof. apply digits_no_underscore. Qed.

(** A string is cut at its last separator in one way only. *)
Lemma app_sep_unique (sep : ascii) : forall h1 h2 d1 d2 : str,
  ~ In sep d1 -> ~ In sep d2 ->
  h1 ++ [sep] ++ d1 = h2 ++ [sep] ++ d2 -> h1 = h2 /\ d1 = d2.
Proof.
  induction h1 as [|c h1 IH]; intros [|c' h2] d1 d2 H1 H2 Heq; simpl in Heq.
  - injection Heq as ->. now split.
  - injection Heq as -> ->. destruct H1. apply in_or_app. right. now left.
  - injection Heq as -> <-. destruct H2. apply in_or_app. right. now left.
  - injection Heq as -> Heq. destruct (IH h2 d1 d2 H1 H2 Heq) as [-> ->]. now split.
Qed.

(** C8, as stated, fails: the id is built from the MD5 digest of the path,
    and two different paths with the same digest give the same ids. *)
Lemma chunk_id_not_injective :
  colliding_path_A <> colliding_path_E /\
  chunk_id colliding_path_A 0 = chunk_id colliding_path_E 0 /\
  ~ (forall p1 p2 i1 i2, chunk_id p1 i1 = chunk_id p2 i2 -> p1 = p2 /\ i1 = i2).
Proof.
  assert (Hne : colliding_path_A <> colliding_path_E) by (vm_compute; discriminate).
  assert (Heq : chunk_id colliding_path_A 0 = chunk_id colliding_path_E 0)
    by (vm_compute; reflexivity).
  split; [exact Hne|]. split; [exact Heq|].
  intros Hinj. apply Hne. exact (proj1 (Hinj _ _ _ _ Heq)).
Qed.

(** C8, amended. The id of a chunk is a function of the path and the
    index alone: the request that [index_file] builds for chunk [i] of a
    path carries the id [chunk_id path i] whatever the chunk, its embedding
    and the number of chunks.  Two ids are equal exactly when the indices
    are equal and the paths have the same MD5 digest; so two chunks of one
    document never share an id. *)
Theorem chunk_id_identity :
  (forall (E : Type) (p : path) (i : nat) (total total' : Z)
          (chunk chunk' : str) (e e' : E),
     ids (chunk_request p total i chunk e) = [chunk_id (path_str p) i] /\
     ids (chunk_request p total' i chunk' e') = [chunk_id (path_str p) i]) /\
  (forall p1 p2 i1 i2,
     chunk_id p1 i1 = chunk_id p2 i2 <-> file_id p1 = file_id p2 /\ i1 = i2) /\
  (forall p i1 i2, chunk_id p i1 = chunk_id p i2 -> i1 = i2).
Proof.
  assert (Hiff : forall p1 p2 i1 i2,
             chunk_id p1 i1 = chunk_id p2 i2 <-> file_id p1 = file_id p2 /\ i1 = i2).
  { intros p1 p2 i1 i2. unfold chunk_id. split.
    - intros Heq.
      apply (app_sep_unique "_"%char) in Heq as [Hfile Hdec];
        try apply decimal_no_underscore.
      split; [assumption|now apply decimal_inj].
    - intros [-> ->]. reflexivity. }
  split; [intros; split; reflexivity|]. split; [exact Hiff|].
  intros p i1 i2 Heq. exact (proj2 (proj1 (Hiff p p i1 i2) Heq)).
Qed.

(** The theorem at the two colliding paths: equal ids, equal digests. *)
Lemma chunk_id_identity_witness :
  file_id colliding_path_A = file_id colliding_path_E /\ 0%nat = 0%nat.
Proof.
  apply (proj1 (proj1 (proj2 chunk_id_identity) colliding_path_A colliding_path_E 0%nat 0%nat)).
  vm_compute. reflexivity.
Defined.

(** ** Indexer *)

Lemma lookup_combine {A B} (xs : list A) (ys : list B) i x y :
  xs !! i = Some x -> ys !! i = Some y -> combine xs ys !! i = Some (x, y).
Proof.
  revert ys i. induction xs as [|x' xs IH]; intros [|y' ys] [|i]; simpl;
    try discriminate.
  - now intros [= ->] [= ->].
  - apply IH.
Qed.

Section IndexerProperties.

Context {C E : Type} `{!Collection C E}.
Variable fs : file_system.
Variable embedding_model_encode : list str -> result (list E).

(** The loop of [index_file] is [submit] through [collection_add]. *)
Lemma for_each_add (file_path : path) (total : Z) :
  forall (xs : list (nat * (str * E))) (w : world C),
  for_each xs (fun '(i, (chunk, embedding)) =>
                 add (chunk_request file_path total i chunk embedding)) w
  = let r := submit collection_add
               (map (fun '(i, (chunk, embedding)) =>
                       chunk_request file_path total i chunk embedding) xs)
               (collection w) in
    (World r.1 (stdout w), r.2).
Proof.
  induction xs as [|[i [chunk embedding]] xs IH]; intros [c out]; [reflexivity|].
  simpl. unfold bind, add at 1. simpl.
  destruct (collection_add c _) as [c'|e]; [|reflexivity].
  rewrite IH. reflexivity.
Qed.

(** A file that is read, is not blank and is embedded: its requests go
    through [collection_add] one by one; the first call that raises ends the
    run with an ["indexing_error"], the earlier writes staying. *)
Lemma index_file_run file_path w content embeddings :
  let p := expanduser fs file_path in
  let chunks := _split_into_chunks content 1000 in
  path_exists fs p = true ->
  read_text fs p = Ok content ->
  strip content <> [] ->
  embedding_model_encode chunks = Ok embeddings ->
  index_file fs embedding_model_encode file_path w
  = let r := submit collection_add (chunk_requests p chunks embeddings) (collection w) in
    (World r.1 (stdout w),
     Ok match r.2 with
        | Ok _ => Success (FileReport (path_str p) (len chunks))
        | Raise e => Failure (exn_str e) (lit "indexing_error")
        end).
Proof.
  intros p chunks Hexists Hread Hblank Henc.
  unfold index_file, try_except. fold p. rewrite Hexists, Hread.
  change (negb true) with false. cbv beta iota.
  apply truthy_true in Hblank. rewrite Hblank.
  change (negb true) with false. cbv beta iota.
  fold chunks. unfold bind at 1, lift. rewrite Henc. unfold bind.
  rewrite for_each_add. unfold chunk_requests, enumerate. cbv zeta.
  destruct (submit collection_add _ (collection w)) as [c' [[]|e]]; reflexivity.
Qed.

End IndexerProperties.

(** C3. The code on the directory of the scenario, an empty file and a
    valid file with the default extensions: [index_file] rejects the empty
    file (it returns a failure, it does not raise), and [index_directory],
    which does not look at what [index_file] returns, reports two indexed
    files, none skipped and no error. *)
Theorem empty_file_is_counted_as_indexed :
  (index_file (Collection0 := scenario_store) scenario_directory unit_embeddings
     (lit "/src/empty.py") empty_world).2
    = Ok (Failure (lit "Empty file, skipped") (lit "empty_file")) /\
  (index_file (Collection0 := scenario_store) scenario_directory unit_embeddings
     (lit "/src/valid.py") empty_world).2
    = Ok (Success (FileReport (lit "/src/valid.py") 1)) /\
  (index_directory (Collection0 := scenario_store) scenario_directory unit_embeddings
     (lit "/src") None None empty_world).2
    = Ok (Success (DirectoryReport 2 0 0 (lit "/src"))).
Proof. evaluate. Qed.

(** ** Re-indexing *)

Section ReplacingStore.

Context {E : Type}.
Variable file_path : path.
Variable total : Z.

Lemma chunk_id_index_inj p i j : chunk_id p i = chunk_id p j -> i = j.
Proof.
  unfold chunk_id. intros Heq.
  apply (app_sep_unique "_"%char) in Heq as [_ Hdec];
    try apply decimal_no_underscore.
  now apply decimal_inj.
Qed.

Lemma keyed_replace_request (c : gmap str (stored E)) i chunk e :
  keyed_add ReplaceDuplicate c (chunk_request file_path total i chunk e)
  = Ok (<[chunk_id (path_str file_path) i
            := Stored e chunk (chunk_metadata file_path total i)]> c).
Proof. reflexivity. Qed.

(** With a store whose [add] replaces, submitting the requests of the
    chunks numbered from [i0] never raises, leaves the ids below [i0] alone
    and puts chunk [j] under the id of index [i0 + j]. *)
Lemma submit_replace :
  forall (pairs : list (str * E)) (i0 : nat) (c : gmap str (stored E)),
  let r := submit (keyed_add ReplaceDuplicate)
             (map (fun '(i, (chunk, e)) => chunk_request file_path total i chunk e)
                  (enumerate_from i0 pairs)) c in
  r.2 = Ok tt /\
  (forall k, (k < i0)%nat ->
     r.1 !! chunk_id (path_str file_path) k = c !! chunk_id (path_str file_path) k) /\
  (forall j chunk e, pairs !! j = Some (chunk, e) ->
     r.1 !! chunk_id (path_str file_path) (i0 + j)
     = Some (Stored e chunk (chunk_metadata file_path total (i0 + j)))).
Proof.
  induction pairs as [|[chunk e] pairs IH]; intros i0 c.
  - split; [reflexivity|]. split; [reflexivity|]. intros j ch e [=].
  - cbn [enumerate_from map submit]. rewrite keyed_replace_request.
    destruct (IH (S i0) (<[chunk_id (path_str file_path) i0
                            := Stored e chunk (chunk_metadata file_path total i0)]> c))
      as (Hok & Hlow & Hhigh).
    split; [exact Hok|]. split.
    + intros k Hk. rewrite Hlow by lia. apply lookup_insert_ne.
      intros Heq. apply chunk_id_index_inj in Heq. lia.
    + intros [|j] ch e' Hj.
      * injection Hj as -> ->. rewrite Hlow by lia.
        rewrite Nat.add_0_r. apply lookup_insert_eq.
      * replace (i0 + S j)%nat with (S i0 + j)%nat by lia. now apply Hhigh.
Qed.

(** It leaves alone every id that is not the id of one of the chunks. *)
Lemma submit_replace_others :
  forall (pairs : list (str * E)) (i0 : nat) (c : gmap str (stored E)) (id : str),
  (forall j, (j < length pairs)%nat -> id <> chunk_id (path_str file_path) (i0 + j)) ->
  (submit (keyed_add ReplaceDuplicate)
     (map (fun '(i, (chunk, e)) => chunk_request file_path total i chunk e)
          (enumerate_from i0 pairs)) c).1 !! id
  = c !! id.
Proof.
  induction pairs as [|[chunk e] pairs IH]; intros i0 c id Hother; [reflexivity|].
  cbn [enumerate_from map submit]. rewrite keyed_replace_request.
  rewrite IH.
  - apply lookup_insert_ne. intros Heq.
    apply (Hother 0%nat); [cbn; lia|]. now rewrite Nat.add_0_r.
  - intros j Hj. replace (S i0 + j)%nat with (i0 + S j)%nat by lia.
    apply Hother. cbn. lia.
Qed.

End ReplacingStore.

(** C9, as stated, fails: [index_file] calls [add], not [upsert].  On a
    store whose [add] leaves a stored id alone, indexing the file again
    reports success and the old record stays; on a store whose [add]
    refuses a stored id, it reports an ["indexing_error"] and the old record
    stays. *)
Lemma reindexing_does_not_replace :
  ((reindex IgnoreDuplicate).2 = Ok (Success (FileReport (lit "/src/a.py") 1)) /\
   stored_document <$> collection (reindex IgnoreDuplicate).1
                         !! chunk_id (lit "/src/a.py") 0
     = Some (lit "x = 1")) /\
  ((reindex RejectDuplicate).2
     = Ok (Failure (lit "ID already exists") (lit "indexing_error")) /\
   stored_document <$> collection (reindex RejectDuplicate).1
                         !! chunk_id (lit "/src/a.py") 0
     = Some (lit "x = 1")) /\
  ~ submits_by_upsert (Collection0 := keyed_collection unit IgnoreDuplicate)
      (one_file (lit "x = 2")) unit_embeddings.
Proof.
  split; [split; vm_compute; reflexivity|].
  split; [split; vm_compute; reflexivity|].
  intros Hupsert.
  specialize (Hupsert (lit "/src/a.py")
                (index_file (Collection0 := keyed_collection unit IgnoreDuplicate)
                   (one_file (lit "x = 1")) unit_embeddings (lit "/src/a.py")
                   empty_world).1
                (lit "x = 2") [tt]
                ltac:(vm_compute; reflexivity) ltac:(vm_compute; reflexivity)
                ltac:(vm_compute; discriminate) ltac:(vm_compute; reflexivity)).
  apply (f_equal (fun c => stored_document <$> c !! chunk_id (lit "/src/a.py") 0))
    in Hupsert.
  vm_compute in Hupsert. discriminate.
Qed.

(** C9, amended. [index_file] submits the chunk records through the
    store's [add], one call per chunk in order, under the ids
    [chunk_id path i]; the first call that raises ends the run with an
    ["indexing_error"] result.  What becomes of a record already stored
    under an id is the store's [add] to decide: when [add] replaces, indexing
    a file again succeeds, leaves under the id of each new chunk the record
    of that chunk, and leaves every other record as it was; the chunks that
    an earlier, longer version of the file had beyond the new ones are not
    removed. *)
Theorem index_file_submits_by_add :
  (forall (C E : Type) (H : Collection C E) (fs : file_system)
          (embedding_model_encode : list str -> result (list E))
          (file_path : str) (w : world C) (content : str) (embeddings : list E),
     let p := expanduser fs file_path in
     let chunks := _split_into_chunks content 1000 in
     path_exists fs p = true ->
     read_text fs p = Ok content ->
     strip content <> [] ->
     embedding_model_encode chunks = Ok embeddings ->
     index_file fs embedding_model_encode file_path w
     = let r := submit collection_add (chunk_requests p chunks embeddings)
                  (collection w) in
       (World r.1 (stdout w),
        Ok match r.2 with
           | Ok _ => Success (FileReport (path_str p) (len chunks))
           | Raise e => Failure (exn_str e) (lit "indexing_error")
           end)) /\
  (forall (E : Type) (fs : file_system)
          (embedding_model_encode : list str -> result (list E))
          (file_path : str) (w : world (gmap str (stored E)))
          (content : str) (embeddings : list E),
     let p := expanduser fs file_path in
     let chunks := _split_into_chunks content 1000 in
     let run := index_file (Collection0 := keyed_collection E ReplaceDuplicate)
                  fs embedding_model_encode file_path w in
     path_exists fs p = true ->
     read_text fs p = Ok content ->
     strip content <> [] ->
     embedding_model_encode chunks = Ok embeddings ->
     run.2 = Ok (Success (FileReport (path_str p) (len chunks))) /\
     (forall i chunk e,
        chunks !! i = Some chunk -> embeddings !! i = Some e ->
        collection run.1 !! chunk_id (path_str p) i
        = Some (Stored e chunk (chunk_metadata p (len chunks) i))) /\
     (forall id,
        (forall i, (i < length chunks)%nat -> (i < length embeddings)%nat ->
                   id <> chunk_id (path_str p) i) ->
        collection run.1 !! id = collection w !! id)).
Proof.
  split.
  - intros C E H fs enc file_path w content embeddings. apply index_file_run.
  - intros E fs enc file_path w content embeddings p chunks run
      Hexists Hread Hblank Henc.
    subst run. unfold p, chunks.
    rewrite (index_file_run fs enc file_path w content embeddings
               Hexists Hread Hblank Henc).
    fold p chunks. cbv zeta. unfold chunk_requests, enumerate.
    destruct (submit_replace p (len chunks) (combine chunks embeddings) 0%nat
                (collection w)) as (Hok & _ & Hput).
    pose proof (submit_replace_others p (len chunks) (combine chunks embeddings)
                  0%nat (collection w)) as Hothers.
    cbv zeta in Hok, Hput. cbn [collection_add keyed_collection].
    cbn [fst snd]. rewrite Hok. split; [reflexivity|]. split.
    + intros i chunk e Hchunk He. apply (Hput i chunk e).
      now apply lookup_combine.
    + intros id Hid. cbn [collection]. apply Hothers.
      intros j Hj. rewrite length_combine in Hj. cbn [Nat.add].
      apply Hid; lia.
Qed.

(** The theorem at a file of two chunks indexed a second time with a
    content of one chunk, on a store whose [add] replaces: the first id
    holds the new chunk and the second id still holds the old second
    chunk. *)
Lemma index_file_submits_by_add_witness :
  let run := index_file (Collection0 := keyed_collection unit ReplaceDuplicate)
               shortened_file unit_embeddings (lit "/src/big.py") big_file_indexed in
  run.2 = Ok (Success (FileReport (lit "/src/big.py") 1)) /\
  stored_document <$> collection run.1 !! chunk_id (lit "/src/big.py") 0
  = Some (lit "x = 2") /\
  stored_document <$> collection run.1 !! chunk_id (lit "/src/big.py") 1
  = Some (repeat "b"%char 600).
Proof.
  intros run.
  destruct (proj2 index_file_submits_by_add unit
              shortened_file unit_embeddings (lit "/src/big.py") big_file_indexed
              (lit "x = 2") [tt]
              ltac:(vm_compute; reflexivity) ltac:(vm_compute; reflexivity)
              ltac:(vm_compute; discriminate) ltac:(vm_compute; reflexivity))
    as (Hok & Hput & Hothers).
  split; [exact Hok|]. split.
  - pose proof (Hput 0%nat (lit "x = 2") tt eq_refl eq_refl) as Hnew.
    apply (f_equal (fmap stored_document)) in Hnew. exact Hnew.
  - subst run.
    rewrite (Hothers (chunk_id (lit "/src/big.py") 1)).
    + vm_compute. reflexivity.
    + intros i Hi _ Heq. apply chunk_id_index_inj in Heq.
      change (length (_split_into_chunks (lit "x = 2") 1000)) with 1%nat in Hi. lia.
Defined.

(** * Further properties *)

(** ** Chunker: texts within the limit *)

(** Every line costs its length and one separator. *)
Lemma len_join_cons (sep : str) (p : str) (parts : list str) :
  len (join sep (p :: parts))
  = len p + fold_right (fun q total => len sep + len q + total) 0 parts.
Proof.
  revert p. induction parts as [|q parts IH]; intros p.
  - simpl. lia.
  - change (join sep (p :: q :: parts)) with (p ++ sep ++ join sep (q :: parts)).
    rewrite !len_app, IH. simpl. lia.
Qed.

Lemma len_join_app_le (sep : str) (p : str) (parts rest : list str) :
  len (join sep (p :: parts)) <= len (join sep (p :: parts ++ rest)).
Proof.
  rewrite !len_join_cons, fold_right_app.
  assert (Hnn : forall (l : list str) acc, 0 <= acc ->
            acc <= fold_right (fun q total => len sep + len q + total) acc l
            /\ fold_right (fun q total => len sep + len q + total) 0 l
               <= fold_right (fun q total => len sep + len q + total) acc l).
  { induction l as [|q l IH]; intros acc Hacc; simpl; [lia|].
    destruct (IH acc Hacc). pose proof (len_nonneg sep). pose proof (len_nonneg q). lia. }
  assert (Hrest : 0 <= fold_right (fun q total => len sep + len q + total) 0 rest).
  { destruct (Hnn rest 0 ltac:(lia)). assumption. }
  destruct (Hnn parts _ Hrest). lia.
Qed.

(** While the whole text fits, every line goes to the buffer and nothing is
    flushed. *)
Lemma chunk_lines_fit max_chunk_size (first : str) : forall rest buffered,
  len (join [newline] (first :: buffered ++ rest)) + 1 <= max_chunk_size ->
  fold_left (chunk_line max_chunk_size) rest
    (Chunker [] (first :: buffered) (len (join [newline] (first :: buffered)) + 1))
  = Chunker [] (first :: buffered ++ rest)
      (len (join [newline] (first :: buffered ++ rest)) + 1).
Proof.
  induction rest as [|line rest IH]; intros buffered Hfit.
  - now rewrite app_nil_r.
  - cbn [fold_left].
    assert (Hline : len (join [newline] ((first :: buffered) ++ [line])) + 1
                    <= max_chunk_size).
    { pose proof (len_join_app_le [newline] first (buffered ++ [line]) rest) as Hle.
      rewrite <- app_assoc in Hle. simpl app in *. lia. }
    rewrite join_snoc, !len_app in Hline by discriminate.
    change (len [newline]) with 1 in Hline. pose proof (len_nonneg (join [newline] (first :: buffered))).
    unfold chunk_line at 2. cbn [chunks current_chunk current_size].
    destruct (Z.gtb_spec (len line) max_chunk_size); [lia|].
    destruct (Z.gtb_spec (len (join [newline] (first :: buffered)) + 1 + len line + 1)
                max_chunk_size); [lia|].
    replace (len (join [newline] (first :: buffered)) + 1 + len line + 1)
      with (len (join [newline] (first :: (buffered ++ [line]))) + 1).
    + change ((first :: buffered) ++ [line]) with (first :: (buffered ++ [line])).
      rewrite IH; rewrite <- app_assoc; [reflexivity|assumption].
    + change (first :: (buffered ++ [line])) with ((first :: buffered) ++ [line]).
      rewrite join_snoc, !len_app by discriminate.
      change (len [newline]) with 1. lia.
Qed.

(** X1. A text shorter than the limit is one chunk, the text itself. *)
Theorem short_text_is_one_chunk (text : str) (max_chunk_size : Z) :
  len text < max_chunk_size ->
  _split_into_chunks text max_chunk_size = [text].
Proof.
  intros Hshort. unfold _split_into_chunks.
  pose proof (join_split_on newline text) as Hjoin.
  destruct (split_on newline text) as [|first rest] eqn:Hlines.
  { now destruct (split_on_nonempty newline text). }
  rewrite <- Hjoin in Hshort.
  pose proof (len_join_app_le [newline] first [] rest) as Hfirst.
  cbn [app] in Hfirst. change (join [newline] [first]) with first in Hfirst.
  assert (Hstart : chunk_line max_chunk_size (Chunker [] [] 0) first
                   = Chunker [] [first] (len (join [newline] [first]) + 1)).
  { unfold chunk_line. cbn [chunks current_chunk current_size app].
    change (join [newline] [first]) with first.
    destruct (Z.gtb_spec (len first) max_chunk_size); [lia|].
    destruct (Z.gtb_spec (0 + len first + 1) max_chunk_size); [lia|].
    reflexivity. }
  cbn [fold_left]. rewrite Hstart.
  pose proof (chunk_lines_fit max_chunk_size first rest []) as Hfit.
  cbn [app] in Hfit. rewrite Hfit by lia.
  cbn [current_chunk chunks truthy app]. now rewrite Hjoin.
Qed.

(** The theorem at a text of four lines and 28 characters. *)
Lemma short_text_is_one_chunk_witness :
  _split_into_chunks short_lines_text 1000 = [short_lines_text].
Proof.
  apply (short_text_is_one_chunk short_lines_text 1000). vm_compute. reflexivity.
Defined.

(** ** Chunker: text that is not blank *)

Lemma split_from_word_nonempty (s : str) : forall word,
  word <> [] -> split_from word s <> [].
Proof.
  induction s as [|c s IH]; intros word Hword; simpl.
  - now destruct word.
  - destruct (isspace c); [now destruct word|].
    apply IH. now destruct word.
Qed.

Lemma lstrip_split_from (s : str) : forall word,
  lstrip s <> [] -> split_from word s <> [].
Proof.
  induction s as [|c s IH]; intros word Hs; simpl in *; [congruence|].
  destruct (isspace c).
  - destruct word; [now apply IH|discriminate].
  - apply split_from_word_nonempty. now destruct word.
Qed.

(** Content that [index_file] does not reject as empty has a word. *)
Lemma strip_split_whitespace (s : str) :
  strip s <> [] -> split_whitespace s <> [].
Proof.
  intros Hstrip. apply lstrip_split_from. intros Hl.
  apply Hstrip. unfold strip. now rewrite Hl.
Qed.

(** X2. Content that is not blank (the content [index_file] goes on to
    chunk) gives at least one chunk, whatever the limit. *)
Theorem non_blank_content_has_a_chunk (content : str) (max_chunk_size : Z) :
  strip content <> [] ->
  _split_into_chunks content max_chunk_size <> [] /\
  1 <= len (_split_into_chunks content max_chunk_size).
Proof.
  intros Hstrip. apply strip_split_whitespace in Hstrip.
  rewrite <- (chunks_keep_words content max_chunk_size) in Hstrip.
  destruct (_split_into_chunks content max_chunk_size) as [|c cs]; [now destruct Hstrip|].
  split; [discriminate|]. rewrite len_cons. pose proof (len_nonneg cs). lia.
Qed.

(** The theorem at a line of blanks around one word, with a limit below
    the length of the line. *)
Lemma non_blank_content_has_a_chunk_witness :
  _split_into_chunks (lit "   x   ") 3 <> [] /\
  1 <= len (_split_into_chunks (lit "   x   ") 3).
Proof.
  apply (non_blank_content_has_a_chunk (lit "   x   ") 3).
  vm_compute. discriminate.
Defined.

(** ** Chunker: texts without long words *)

Lemma lines_words_are_text_words (text line word : str) :
  In line (split_on newline text) -> In word (split_whitespace line) ->
  In word (split_whitespace text).
Proof.
  intros Hline Hword. rewrite <- (join_split_on newline text) at 1.
  rewrite split_whitespace_join by reflexivity.
  apply in_flat_map. eauto.
Qed.

(** All the chunks satisfy the invariant of the loops. *)
Lemma all_chunks_bounded_or_word (text : str) (max_chunk_size : Z) :
  0 <= max_chunk_size ->
  Forall (bounded_or_word max_chunk_size (split_on newline text))
    (_split_into_chunks text max_chunk_size).
Proof.
  intros Hnonneg.
  pose proof (chunk_lines_ok max_chunk_size Hnonneg (split_on newline text)
                (split_on newline text) (Chunker [] [] 0) (fun _ H => H)) as Hok.
  specialize (Hok ltac:(split; [constructor|simpl; rewrite len_nil; lia])).
  pose proof (chunker_flush_ok _ _ _ Hok) as Hflush. destruct Hok as [Hchunks _].
  unfold _split_into_chunks. destruct (truthy (current_chunk _)); [|assumption].
  apply Forall_app. split; [assumption|now constructor].
Qed.

(** X3. When no word of the text is longer than the limit, every chunk is
    within the limit. *)
Theorem chunks_within_limit_without_long_words (text : str) (max_chunk_size : Z) :
  0 <= max_chunk_size ->
  (forall word, In word (split_whitespace text) -> len word <= max_chunk_size) ->
  forall c, In c (_split_into_chunks text max_chunk_size) -> len c <= max_chunk_size.
Proof.
  intros Hnonneg Hwords c Hc.
  pose proof (all_chunks_bounded_or_word text max_chunk_size Hnonneg) as Hall.
  rewrite List.Forall_forall in Hall.
  destruct (Hall c Hc) as [Hle | (Hlong & _ & line & Hline & Hword)]; [assumption|].
  specialize (Hwords c (lines_words_are_text_words text line c Hline Hword)). lia.
Qed.

(** The theorem at a wrapped line, for its first chunk. *)
Lemma chunks_within_limit_without_long_words_witness :
  len (lit "ab cd") <= 6.
Proof.
  apply (chunks_within_limit_without_long_words (lit "ab cd ef gh") 6).
  - lia.
  - intros word Hword. vm_compute in Hword.
    destruct Hword as [<- | [<- | [<- | [<- | []]]]]; vm_compute; discriminate.
  - vm_compute. left. reflexivity.
Defined.

(** ** Context assembly: lengths and budgets *)

Lemma entries_length_nonneg {D} (hits : list (hit D)) : 0 <= entries_length hits.
Proof.
  induction hits as [|h hits IH]; simpl; [lia|].
  pose proof (len_nonneg (format_entry h)). lia.
Qed.

Lemma len_concat_entries {D} (hits : list (hit D)) :
  len (concat (map format_entry hits)) = entries_length hits.
Proof.
  induction hits as [|h hits IH]; [reflexivity|].
  cbn [map concat entries_length fold_right]. rewrite len_app, IH. reflexivity.
Qed.

(** The joined entries: their lengths and one newline between two. *)
Lemma len_join_entries {D} (hits : list (hit D)) :
  len (join [newline] (map format_entry hits))
  = entries_length hits + Z.max 0 (len hits - 1).
Proof.
  assert (Hsep : forall l : list (hit D),
            fold_right (fun q total => len [newline] + len q + total) 0
              (map format_entry l)
            = entries_length l + len l).
  { unfold entries_length. induction l as [|h l IH]; [reflexivity|].
    cbn [map fold_right]. rewrite IH, !len_cons, len_nil. lia. }
  destruct hits as [|h hits]; [reflexivity|].
  cbn [map]. rewrite len_join_cons, Hsep, !len_cons.
  unfold entries_length. cbn [fold_right].
  pose proof (len_nonneg hits). lia.
Qed.

(** X4. For a budget that is not negative, the accepted entries alone fit
    the budget, and the returned string, which has one newline more between
    two entries, exceeds it by at most one character per hit after the
    first: by nothing when at most one hit is given. *)
Theorem context_length_bound {D} (hits : list (hit D)) (max_context_length : Z) :
  0 <= max_context_length ->
  len (concat (collect_context_parts hits [] 0 max_context_length))
    <= max_context_length /\
  len (assemble_context hits max_context_length)
    <= max_context_length + Z.max 0 (len hits - 1) /\
  (len hits <= 1 ->
   len (assemble_context hits max_context_length) <= max_context_length).
Proof.
  intros Hmax. unfold assemble_context.
  destruct (collect_context_parts_prefix max_context_length hits [] 0)
    as (k & Hk & Heq & Hfit & _).
  rewrite Heq. cbn [app]. rewrite len_concat_entries, len_join_entries.
  assert (Hsum : entries_length (firstn k hits) <= max_context_length).
  { destruct k as [|k]; [simpl; lia|]. specialize (Hfit (S k) ltac:(lia)). lia. }
  assert (Hlen : len (firstn k hits) <= len hits).
  { unfold len. rewrite length_firstn. lia. }
  pose proof (len_nonneg (firstn k hits)). lia.
Qed.

(** The theorem at the two hits that fill a budget of 66. *)
Lemma context_length_bound_witness :
  len (concat (collect_context_parts two_hits [] 0 66)) <= 66 /\
  len (assemble_context two_hits 66) <= 66 + Z.max 0 (len two_hits - 1).
Proof.
  destruct (context_length_bound two_hits 66 ltac:(lia)) as (Hparts & Hjoin & _).
  split; assumption.
Defined.


(** X5. A budget large enough for all the entries keeps every hit, in the
    order given. *)
Theorem context_holds_all_hits_that_fit {D} (hits : list (hit D)) (max_context_length : Z) :
  entries_length hits <= max_context_length ->
  collect_context_parts hits [] 0 max_context_length = map format_entry hits /\
  assemble_context hits max_context_length = join [newline] (map format_entry hits).
Proof.
  intros Hfit.
  assert (Hall : forall (l : list (hit D)) parts current,
            current + entries_length l <= max_context_length ->
            collect_context_parts l parts current max_context_length
            = parts ++ map format_entry l).
  { induction l as [|h l IH]; intros parts current Hl; cbn [collect_context_parts map].
    - now rewrite app_nil_r.
    - unfold entries_length in Hl. cbn [fold_right] in Hl.
      fold (entries_length l) in Hl. pose proof (entries_length_nonneg l).
      destruct (Z.gtb_spec (current + len (format_entry h)) max_context_length); [lia|].
      rewrite IH by lia. now rewrite <- app_assoc. }
  unfold assemble_context. rewrite (Hall hits [] 0) by lia. now split.
Qed.

(** The theorem at the two hits and a budget of 66. *)
Lemma context_holds_all_hits_that_fit_witness :
  collect_context_parts two_hits [] 0 66 = map format_entry two_hits.
Proof.
  apply (context_holds_all_hits_that_fit two_hits 66). vm_compute. discriminate.
Defined.



(** ** Retriever: what [search] returns *)

Section SearchProperties.

Context {C E D : Type}.
Variable embedding_model_encode : list str -> result (list E).
Variable collection_query :
  C -> list E -> Z -> option where_filter -> result (query_result D).

(** An index that is out of range raises the one [IndexError]. *)
Lemma format_results_raise (r : query_result D) : forall indices e,
  format_results r indices = Raise e ->
  e = Exception (lit "list index out of range").
Proof.
  assert (Hone : forall i e, format_result r i = Raise e ->
                   e = Exception (lit "list index out of range")).
  { intros i e. unfold format_result, index.
    destruct (result_ids r !! i), (result_documents r !! i),
             (result_metadatas r !! i); try (now intros [= <-]).
    destruct (result_distances r) as [ds|]; [|discriminate].
    destruct (ds !! i); [discriminate|now intros [= <-]]. }
  induction indices as [|i indices IH]; intros e; cbn [format_results]; [discriminate|].
  destruct (format_result r i) eqn:Hi; [|intros [= <-]; eauto].
  destruct (format_results r indices); [discriminate|intros [= <-]; eauto].
Qed.

(** The hits formatted for a list of indices are the rows of the store's
    answer at these indices. *)
Lemma format_results_rows (r : query_result D) : forall indices hs,
  format_results r indices = Ok hs ->
  map (fun h => Some (hit_id h)) hs = map (fun i => result_ids r !! i) indices /\
  map (fun h => Some (document h)) hs = map (fun i => result_documents r !! i) indices /\
  map (fun h => Some (hit_metadata h)) hs
    = map (fun i => result_metadatas r !! i) indices /\
  match result_distances r with
  | None => Forall (fun h => distance h = None) hs
  | Some ds => map distance hs = map (fun i => ds !! i) indices
  end.
Proof.
  induction indices as [|i indices IH]; intros hs; cbn [format_results].
  - intros [= <-]. repeat split; destruct (result_distances r); constructor.
  - unfold format_result, index.
    destruct (result_ids r !! i) as [id|] eqn:Hid; [|destruct (result_documents r !! i), (result_metadatas r !! i); discriminate].
    destruct (result_documents r !! i) as [doc|] eqn:Hdoc;
      [|destruct (result_metadatas r !! i); discriminate].
    destruct (result_metadatas r !! i) as [meta|] eqn:Hmeta; [|discriminate].
    destruct (result_distances r) as [ds|] eqn:Hds.
    + destruct (ds !! i) as [d|] eqn:Hd; [|discriminate].
      destruct (format_results r indices) as [hs'|]; [|discriminate].
      intros [= <-]. destruct (IH hs' eq_refl) as (H1 & H2 & H3 & H4).
      cbn [map hit_id document hit_metadata distance].
      rewrite H1, H2, H3, H4, Hid, Hdoc, Hmeta, Hd. repeat split.
    + destruct (format_results r indices) as [hs'|]; [|discriminate].
      intros [= <-]. destruct (IH hs' eq_refl) as (H1 & H2 & H3 & H4).
      cbn [map hit_id document hit_metadata distance].
      rewrite H1, H2, H3, Hid, Hdoc, Hmeta. repeat split. now constructor.
Qed.

Lemma format_results_length (r : query_result D) : forall indices hs,
  format_results r indices = Ok hs -> length hs = length indices.
Proof.
  induction indices as [|i indices IH]; intros hs; cbn [format_results].
  - now intros [= <-].
  - destruct (format_result r i); [|discriminate].
    destruct (format_results r indices) as [hs'|]; [|discriminate].
    intros [= <-]. cbn [length]. now rewrite (IH hs' eq_refl).
Qed.

End SearchProperties.

Lemma lookup_all_indices {A} (l : list A) (n : nat) :
  n = length l -> map (fun i => l !! i) (seq 0 n) = map Some l.
Proof.
  intros ->. apply list_eq. intros i.
  rewrite !list_lookup_fmap.
  destruct (decide (i < length l)%nat) as [Hlt | Hge].
  - rewrite lookup_seq_lt by assumption. cbn.
    destruct (lookup_lt_is_Some_2 l i Hlt) as [x Hx]. now rewrite Hx.
  - rewrite lookup_seq_ge by lia. rewrite lookup_ge_None_2 by lia. reflexivity.
Qed.

Lemma map_Some_inj {A B} (f : A -> B) (l : list A) (l' : list B) :
  map (fun x => Some (f x)) l = map Some l' -> map f l = l'.
Proof.
  revert l'. induction l as [|x l IH]; intros [|y l']; cbn; try discriminate.
  - reflexivity.
  - intros [= -> Hrest]. f_equal. now apply IH.
Qed.

(** X7. [search] never raises, whatever the embedding model and the store
    do: it returns a report or a failure of type ["search_error"], and it
    leaves the collection and the output as they were. *)
Theorem search_never_raises_nor_writes {C E D : Type}
    (embedding_model_encode : list str -> result (list E))
    (collection_query : C -> list E -> Z -> option where_filter -> result (query_result D))
    (q : str) (n_results : Z) (file_extensions : option (list str)) (w : world C) :
  exists answer,
    search embedding_model_encode collection_query q n_results file_extensions w
    = (w, Ok answer) /\
    match answer with
    | Success report => query report = q /\ count report = len (results report)
    | Failure _ type => type = lit "search_error"
    end.
Proof.
  assert (Hcaught : forall e,
            exists answer : outcome (search_report D),
              (w, Ok (Failure (exn_str e) (lit "search_error")))
              = (w, Ok answer) /\
              match answer with
              | Success report => query report = q /\ count report = len (results report)
              | Failure _ type => type = lit "search_error"
              end).
  { intros e. eexists. split; reflexivity. }
  unfold search, try_except, bind, lift, ret.
  destruct (embedding_model_encode [q]) as [vectors|e]; [|apply Hcaught].
  destruct (index vectors 0) as [v|e]; [|apply Hcaught].
  destruct (collection_query _ _ _ _) as [r|e]; [|apply Hcaught].
  destruct (format_results r _) as [hs|e]; [|apply Hcaught].
  eexists. split; [reflexivity|]. split; reflexivity.
Qed.

(** X8. When the query is embedded and the store answers with as many
    documents and metadatas (and distances, if any) as ids, [search]
    succeeds: the hits are the rows of the answer in the store's order,
    nothing added, dropped or reordered, and [count] is their number.  The
    filter sent to the store is [None] for no extension list and for the
    empty one. *)
Theorem search_returns_the_store_ranking {C E D : Type}
    (embedding_model_encode : list str -> result (list E))
    (collection_query : C -> list E -> Z -> option where_filter -> result (query_result D))
    (q : str) (n_results : Z) (file_extensions : option (list str))
    (w : world C) (v : E) (vs : list E) (r : query_result D) :
  embedding_model_encode [q] = Ok (v :: vs) ->
  collection_query (collection w) [v] n_results
    match file_extensions with
    | Some ((_ :: _) as exts) => Some (FileExtensionIn exts)
    | _ => None
    end = Ok r ->
  length (result_documents r) = length (result_ids r) ->
  length (result_metadatas r) = length (result_ids r) ->
  (forall ds, result_distances r = Some ds -> length ds = length (result_ids r)) ->
  exists report,
    search embedding_model_encode collection_query q n_results file_extensions w
    = (w, Ok (Success report)) /\
    query report = q /\
    count report = len (result_ids r) /\
    map hit_id (results report) = result_ids r /\
    map document (results report) = result_documents r /\
    map hit_metadata (results report) = result_metadatas r /\
    match result_distances r with
    | None => Forall (fun h => distance h = None) (results report)
    | Some ds => map distance (results report) = map Some ds
    end.
Proof.
  intros Henc Hquery Hdocs Hmetas Hdists.
  unfold search, try_except, bind, lift, ret. rewrite Henc.
  change (index (v :: vs) 0) with (Ok v). cbv beta iota zeta. rewrite Hquery.
  destruct (format_results r (seq 0 (length (result_ids r)))) as [hs|e] eqn:Hfmt.
  - destruct (format_results_rows r _ hs Hfmt) as (H1 & H2 & H3 & H4).
    pose proof (format_results_length r _ hs Hfmt) as Hlen. rewrite length_seq in Hlen.
    rewrite (lookup_all_indices (result_ids r)) in H1 by congruence.
    rewrite (lookup_all_indices (result_documents r)) in H2 by congruence.
    rewrite (lookup_all_indices (result_metadatas r)) in H3 by congruence.
    eexists. split; [reflexivity|]. cbn [query count results].
    split; [reflexivity|]. split; [unfold len; now rewrite Hlen|].
    split; [now apply map_Some_inj|]. split; [now apply map_Some_inj|].
    split; [now apply map_Some_inj|].
    destruct (result_distances r) as [ds|]; [|assumption].
    rewrite H4. apply lookup_all_indices. symmetry. now apply Hdists.
  - exfalso. revert Hfmt.
    assert (Hall : forall indices,
              Forall (fun i => (i < length (result_ids r))%nat) indices ->
              format_results r indices <> Raise e).
    { induction indices as [|i indices IH]; intros Hin; cbn [format_results];
        [discriminate|].
      apply List.Forall_cons_iff in Hin as [Hi Hin].
      unfold format_result, index.
      destruct (lookup_lt_is_Some_2 (result_ids r) i Hi) as [id ->].
      destruct (lookup_lt_is_Some_2 (result_documents r) i ltac:(lia)) as [doc ->].
      destruct (lookup_lt_is_Some_2 (result_metadatas r) i ltac:(lia)) as [meta ->].
      destruct (result_distances r) as [ds|] eqn:Hds.
      - destruct (lookup_lt_is_Some_2 ds i ltac:(rewrite (Hdists ds eq_refl); lia))
          as [d ->].
        specialize (IH Hin). destruct (format_results r indices); congruence.
      - specialize (IH Hin). destruct (format_results r indices); congruence. }
    apply Hall. apply List.Forall_forall. intros i Hi. apply in_seq in Hi. lia.
Qed.

(** The theorem at a store that echoes the filter, for two extensions. *)
Lemma search_returns_the_store_ranking_witness :
  exists report,
    search unit_embeddings extension_echo_store (lit "q") 5
      (Some [lit ".py"; lit ".md"]) (World tt [])
    = (World tt [], Ok (Success report)) /\
    count report = 2 /\
    map hit_id (results report) = [lit ".py"; lit ".md"] /\
    map distance (results report) = [Some tt; Some tt].
Proof.
  destruct (search_returns_the_store_ranking unit_embeddings extension_echo_store
              (lit "q") 5 (Some [lit ".py"; lit ".md"]) (World tt []) tt []
              (QueryResult [lit ".py"; lit ".md"] [lit ".py"; lit ".md"]
                 (map (fun e => Metadata e e e 0 1) [lit ".py"; lit ".md"])
                 (Some [tt; tt]))
              eq_refl eq_refl eq_refl eq_refl
              ltac:(intros ds [= <-]; reflexivity))
    as (report & Hrun & _ & Hcount & Hids & _ & _ & Hdist).
  exists report. repeat split; assumption.
Defined.

(** The rows that [format_results] reads are all there. *)
Lemma format_results_in_range {D} (r : query_result D) : forall indices hs,
  format_results r indices = Ok hs ->
  Forall (fun i =>
            is_Some (result_ids r !! i) /\ is_Some (result_documents r !! i) /\
            is_Some (result_metadatas r !! i) /\
            forall ds, result_distances r = Some ds -> is_Some (ds !! i)) indices.
Proof.
  induction indices as [|i indices IH]; intros hs; cbn [format_results];
    [constructor|].
  unfold format_result at 1, index.
  destruct (result_ids r !! i) as [id|] eqn:Hid;
    [|destruct (result_documents r !! i), (result_metadatas r !! i); discriminate].
  destruct (result_documents r !! i) as [doc|] eqn:Hdoc;
    [|destruct (result_metadatas r !! i); discriminate].
  destruct (result_metadatas r !! i) as [meta|] eqn:Hmeta; [|discriminate].
  destruct (result_distances r) as [ds|] eqn:Hds.
  - destruct (ds !! i) as [d|] eqn:Hd; [|discriminate].
    destruct (format_results r indices) as [hs'|]; [|discriminate].
    intros _. constructor; [|now apply (IH hs')].
    rewrite Hid, Hdoc, Hmeta. split; [now eexists|]. split; [now eexists|].
    split; [now eexists|]. intros ds' [= <-]. rewrite Hd. now eexists.
  - destruct (format_results r indices) as [hs'|]; [|discriminate].
    intros _. constructor; [|now apply (IH hs')].
    rewrite Hid, Hdoc, Hmeta. split; [now eexists|]. split; [now eexists|].
    split; [now eexists|]. discriminate.
Qed.

(** X9. When the store answers with fewer documents, metadatas or
    distances than ids, [search] does not return the rows it could pair: it
    reports a ["search_error"] whose message is that of the [IndexError]. *)
Theorem search_rejects_a_short_answer {C E D : Type}
    (embedding_model_encode : list str -> result (list E))
    (collection_query : C -> list E -> Z -> option where_filter -> result (query_result D))
    (q : str) (n_results : Z) (file_extensions : option (list str))
    (w : world C) (v : E) (vs : list E) (r : query_result D) :
  embedding_model_encode [q] = Ok (v :: vs) ->
  collection_query (collection w) [v] n_results
    match file_extensions with
    | Some ((_ :: _) as exts) => Some (FileExtensionIn exts)
    | _ => None
    end = Ok r ->
  ((length (result_documents r) < length (result_ids r))%nat \/
   (length (result_metadatas r) < length (result_ids r))%nat \/
   exists ds, result_distances r = Some ds /\
              (length ds < length (result_ids r))%nat) ->
  search embedding_model_encode collection_query q n_results file_extensions w
  = (w, Ok (Failure (lit "list index out of range") (lit "search_error"))).
Proof.
  intros Henc Hquery Hshort.
  unfold search, try_except, bind, lift, ret. rewrite Henc.
  change (index (v :: vs) 0) with (Ok v). cbv beta iota zeta. rewrite Hquery.
  destruct (format_results r (seq 0 (length (result_ids r)))) as [hs|e] eqn:Hfmt.
  - exfalso. apply format_results_in_range in Hfmt.
    rewrite List.Forall_forall in Hfmt.
    assert (Hat : forall k, (k < length (result_ids r))%nat ->
              is_Some (result_documents r !! k) /\
              is_Some (result_metadatas r !! k) /\
              forall ds, result_distances r = Some ds -> is_Some (ds !! k)).
    { intros k Hk. apply Hfmt, in_seq. lia. }
    destruct Hshort as [Hdocs | [Hmetas | (ds & Hds & Hlen)]].
    + destruct (Hat _ Hdocs) as ([x Hx] & _). rewrite lookup_ge_None_2 in Hx by lia.
      discriminate.
    + destruct (Hat _ Hmetas) as (_ & [x Hx] & _).
      rewrite lookup_ge_None_2 in Hx by lia. discriminate.
    + destruct (Hat _ Hlen) as (_ & _ & Hd). destruct (Hd ds Hds) as [x Hx].
      rewrite lookup_ge_None_2 in Hx by lia. discriminate.
  - apply format_results_raise in Hfmt. subst e. reflexivity.
Qed.

(** The theorem at a store that answers with two ids and one document. *)
Lemma search_rejects_a_short_answer_witness :
  search unit_embeddings short_answer_store (lit "q") 5 None (World tt [])
  = (World tt [], Ok (Failure (lit "list index out of range") (lit "search_error"))).
Proof.
  apply (search_rejects_a_short_answer unit_embeddings short_answer_store
           (lit "q") 5 None (World tt []) tt []
           (QueryResult (map hit_id two_hits) [lit "x = 1"]
              (map hit_metadata two_hits) None)
           eq_refl eq_refl).
  left. vm_compute. lia.
Defined.

(** ** Indexer: what [index_file] touches *)

Section IndexFileEffects.

Context {C E : Type} `{!Collection C E}.
Variable fs : file_system.
Variable embedding_model_encode : list str -> result (list E).

(** [index_file] returns a result and prints nothing. *)
Lemma index_file_keeps_stdout file_path (w : world C) :
  exists c outcome,
    index_file fs embedding_model_encode file_path w
    = (World c (stdout w), Ok outcome).
Proof.
  unfold index_file, try_except.
  destruct (path_exists fs (expanduser fs file_path));
    [|destruct w; cbn; eauto].
  change (negb true) with false. cbv beta iota.
  destruct (read_text fs (expanduser fs file_path)) as [content|[m|m]];
    [|destruct w; cbn; eauto..].
  destruct (truthy (strip content)); [|destruct w; cbn; eauto].
  change (negb true) with false. cbv beta iota.
  unfold bind at 1, lift.
  destruct (embedding_model_encode _) as [embeddings|e]; [|destruct w; cbn; eauto].
  unfold bind. rewrite for_each_add. cbv zeta.
  destruct (submit collection_add _ (collection w)) as [c' [[]|e]]; cbn; eauto.
Qed.

(** A file that is missing, unreadable, blank or not embedded leaves the
    collection as it was. *)
Lemma index_file_rejects file_path (w : world C) :
  path_exists fs (expanduser fs file_path) = false \/
  (exists e, read_text fs (expanduser fs file_path) = Raise e) \/
  (exists content,
     read_text fs (expanduser fs file_path) = Ok content /\
     (strip content = [] \/
      exists e, embedding_model_encode (_split_into_chunks content 1000) = Raise e)) ->
  exists error type,
    index_file fs embedding_model_encode file_path w
    = (w, Ok (Failure error type)).
Proof.
  unfold index_file, try_except.
  destruct (path_exists fs (expanduser fs file_path)) eqn:Hexists; [|cbn; eauto].
  change (negb true) with false. cbv beta iota.
  intros [[=] | [[e He] | (content & Hread & Hcase)]].
  - rewrite He. destruct e; cbn; eauto.
  - rewrite Hread. destruct Hcase as [Hblank | [e He]].
    + rewrite Hblank. cbn. eauto.
    + destruct (truthy (strip content)); [|cbn; eauto].
      change (negb true) with false. cbv beta iota.
      unfold bind at 1, lift. rewrite He. cbn. eauto.
Qed.

End IndexFileEffects.

(** X10. [index_file] never raises and never prints, whatever the file
    system, the embedding model and the store do; and a file that is missing,
    cannot be read, is blank, or whose chunks cannot be embedded leaves the
    collection exactly as it was. *)
Theorem index_file_rejections_write_nothing {C E : Type} (H : Collection C E)
    (fs : file_system) (embedding_model_encode : list str -> result (list E))
    (file_path : str) (w : world C) :
  (exists c outcome,
     index_file fs embedding_model_encode file_path w
     = (World c (stdout w), Ok outcome)) /\
  (path_exists fs (expanduser fs file_path) = false \/
   (exists e, read_text fs (expanduser fs file_path) = Raise e) \/
   (exists content,
      read_text fs (expanduser fs file_path) = Ok content /\
      (strip content = [] \/
       exists e, embedding_model_encode (_split_into_chunks content 1000) = Raise e)) ->
   exists error type,
     index_file fs embedding_model_encode file_path w
     = (w, Ok (Failure error type))).
Proof. split; [apply index_file_keeps_stdout|apply index_file_rejects]. Qed.

(** The theorem at the empty file of the scenario, on a store that holds a
    record. *)
Lemma index_file_rejections_write_nothing_witness :
  exists error type,
    index_file (Collection0 := scenario_store) scenario_directory unit_embeddings
      (lit "/src/empty.py") (reindex IgnoreDuplicate).1
    = ((reindex IgnoreDuplicate).1, Ok (Failure error type)).
Proof.
  apply (proj2 (index_file_rejections_write_nothing scenario_store scenario_directory
                  unit_embeddings (lit "/src/empty.py") (reindex IgnoreDuplicate).1)).
  right. right. exists []. split; [reflexivity|]. left. reflexivity.
Defined.

(** ** Indexer: the requests of one run *)

Lemma submit_app {C E} (write : C -> add_request E -> result C)
    (done rest : list (add_request E)) (c : C) :
  submit write (done ++ rest) c
  = match submit write done c with
    | (c', Ok _) => submit write rest c'
    | (c', Raise e) => (c', Raise e)
    end.
Proof.
  revert c. induction done as [|r done IH]; intros c; [reflexivity|].
  cbn [app submit]. destruct (write c r); [apply IH|reflexivity].
Qed.

(** X11. Indexing a file is not atomic: when the store's [add] raises for
    one chunk, the records of the chunks before it stay in the collection,
    none of the chunks after it is submitted, and the result is an
    ["indexing_error"] with the message of the exception. *)
Theorem index_file_keeps_earlier_chunks {C E : Type} (H : Collection C E)
    (fs : file_system) (embedding_model_encode : list str -> result (list E))
    (file_path : str) (w : world C) (content : str) (embeddings : list E)
    (done rest : list (add_request E)) (failing : add_request E)
    (c : C) (e : exn) :
  let p := expanduser fs file_path in
  let chunks := _split_into_chunks content 1000 in
  path_exists fs p = true ->
  read_text fs p = Ok content ->
  strip content <> [] ->
  embedding_model_encode chunks = Ok embeddings ->
  chunk_requests p chunks embeddings = done ++ failing :: rest ->
  submit collection_add done (collection w) = (c, Ok tt) ->
  collection_add c failing = Raise e ->
  index_file fs embedding_model_encode file_path w
  = (World c (stdout w), Ok (Failure (exn_str e) (lit "indexing_error"))).
Proof.
  intros p chunks Hexists Hread Hblank Henc Hrequests Hdone Hfail.
  rewrite (index_file_run fs embedding_model_encode file_path w content embeddings
             Hexists Hread Hblank Henc).
  fold p chunks. rewrite Hrequests, submit_app, Hdone. cbn [submit].
  rewrite Hfail. reflexivity.
Qed.

Lemma enumerate_from_indices {A} (xs : list A) : forall i,
  map fst (enumerate_from i xs) = seq i (length xs).
Proof. induction xs as [|x xs IH]; intros i; cbn; [reflexivity|]. now rewrite IH. Qed.

(** X12. One run of [index_file] never submits the same id twice: the ids
    of the requests built for a file are pairwise different. *)
Theorem index_file_ids_are_distinct {E : Type} (file_path : path)
    (chunks : list str) (embeddings : list E) :
  NoDup (flat_map ids (chunk_requests file_path chunks embeddings)).
Proof.
  unfold chunk_requests, enumerate.
  assert (Hids : forall (rows : list (nat * (str * E))),
            flat_map ids
              (map (fun '(i, (chunk, embedding)) =>
                      chunk_request file_path (len chunks) i chunk embedding) rows)
            = map (chunk_id (path_str file_path)) (map fst rows)).
  { induction rows as [|[i [chunk e]] rows IH]; [reflexivity|].
    cbn [map flat_map fst chunk_request ids app]. now rewrite IH. }
  rewrite Hids, enumerate_from_indices.
  assert (Hinj : Inj (=) (=) (chunk_id (path_str file_path)))
    by (intros i j; apply chunk_id_index_inj).
  apply (NoDup_fmap_2 (chunk_id (path_str file_path))), NoDup_seq.
Qed.

(** ** Indexer: ids that the store does not hold *)

Section FreshIds.

Context {E : Type}.
Variable policy : duplicate_policy.
Variable source_path : path.
Variable total : Z.

(** Whatever its policy for duplicates, [add] stores a record whose id is
    not held. *)
Lemma keyed_add_fresh (c : gmap str (stored E)) i chunk e :
  c !! chunk_id (path_str source_path) i = None ->
  keyed_add policy c (chunk_request source_path total i chunk e)
  = Ok (<[chunk_id (path_str source_path) i
            := Stored e chunk (chunk_metadata source_path total i)]> c).
Proof.
  intros Hfresh. destruct policy; cbn.
  - unfold insert_row. cbn. now rewrite Hfresh.
  - rewrite Hfresh. reflexivity.
  - reflexivity.
Qed.

(** Submitting the requests of the chunks numbered from [i0] to a store
    that holds none of their ids never raises; it puts chunk [j] under the id
    of index [i0 + j], leaves every other id alone and adds one record per
    request; all the new records carry the path of the file. *)
Lemma submit_fresh :
  forall (pairs : list (str * E)) (i0 : nat) (c : gmap str (stored E)),
  (forall k, (i0 <= k)%nat -> c !! chunk_id (path_str source_path) k = None) ->
  let r := submit (keyed_add policy)
             (map (fun '(i, (chunk, e)) => chunk_request source_path total i chunk e)
                  (enumerate_from i0 pairs)) c in
  r.2 = Ok tt /\
  (forall id, (forall k, (i0 <= k)%nat -> id <> chunk_id (path_str source_path) k) ->
     r.1 !! id = c !! id) /\
  (forall j chunk e, pairs !! j = Some (chunk, e) ->
     r.1 !! chunk_id (path_str source_path) (i0 + j)
     = Some (Stored e chunk (chunk_metadata source_path total (i0 + j)))) /\
  size r.1 = (size c + length pairs)%nat /\
  (forall id v, r.1 !! id = Some v ->
     c !! id = Some v \/ file_path (stored_metadata v) = path_str source_path).
Proof.
  induction pairs as [|[chunk e] pairs IH]; intros i0 c Hfresh.
  - cbn. split; [reflexivity|]. split; [reflexivity|].
    split; [intros j ch e' [=]|]. split; [lia|]. intros id v Hv. now left.
  - cbn [enumerate_from map submit]. rewrite keyed_add_fresh by (apply Hfresh; lia).
    set (c1 := <[chunk_id (path_str source_path) i0
                  := Stored e chunk (chunk_metadata source_path total i0)]> c).
    assert (Hfresh1 : forall k, (S i0 <= k)%nat ->
              c1 !! chunk_id (path_str source_path) k = None).
    { intros k Hk. unfold c1. rewrite lookup_insert_ne; [apply Hfresh; lia|].
      intros Heq. apply chunk_id_index_inj in Heq. lia. }
    destruct (IH (S i0) c1 Hfresh1) as (Hok & Hframe & Hput & Hsize & Hpath).
    split; [exact Hok|]. split; [|split; [|split]].
    + intros id Hid. rewrite Hframe by (intros k Hk; apply Hid; lia).
      unfold c1. apply lookup_insert_ne. apply not_eq_sym, Hid. lia.
    + intros [|j] ch e' Hj.
      * injection Hj as -> ->. rewrite Nat.add_0_r.
        rewrite Hframe; [unfold c1; apply lookup_insert_eq|].
        intros k Hk Heq. apply chunk_id_index_inj in Heq. lia.
      * replace (i0 + S j)%nat with (S i0 + j)%nat by lia. now apply Hput.
    + rewrite Hsize. unfold c1.
      rewrite map_size_insert_None by (apply Hfresh; lia). cbn [length]. lia.
    + intros id v Hv. destruct (Hpath id v Hv) as [Hc1 | Hp]; [|now right].
      unfold c1 in Hc1.
      destruct (decide (chunk_id (path_str source_path) i0 = id)) as [<- | Hne].
      * rewrite lookup_insert_eq in Hc1. injection Hc1 as <-. now right.
      * rewrite lookup_insert_ne in Hc1 by assumption. now left.
Qed.

End FreshIds.

(** X13. On a keyed store that holds no id of the file, whatever the
    store does with duplicates, [index_file] succeeds: every chunk is stored
    under [chunk_id path i] with its embedding and metadata, the records of
    other ids are untouched, and the store grows by one record per embedded
    chunk. *)
Theorem index_file_stores_a_new_file {E : Type} (policy : duplicate_policy)
    (fs : file_system) (embedding_model_encode : list str -> result (list E))
    (file_path : str) (w : world (gmap str (stored E)))
    (content : str) (embeddings : list E) :
  let p := expanduser fs file_path in
  let chunks := _split_into_chunks content 1000 in
  let run := index_file (Collection0 := keyed_collection E policy)
               fs embedding_model_encode file_path w in
  path_exists fs p = true ->
  read_text fs p = Ok content ->
  strip content <> [] ->
  embedding_model_encode chunks = Ok embeddings ->
  (forall i, collection w !! chunk_id (path_str p) i = None) ->
  run.2 = Ok (Success (FileReport (path_str p) (len chunks))) /\
  (forall i chunk e,
     chunks !! i = Some chunk -> embeddings !! i = Some e ->
     collection run.1 !! chunk_id (path_str p) i
     = Some (Stored e chunk (chunk_metadata p (len chunks) i))) /\
  (forall id, (forall i, id <> chunk_id (path_str p) i) ->
     collection run.1 !! id = collection w !! id) /\
  size (collection run.1)
  = (size (collection w) + length (combine chunks embeddings))%nat.
Proof.
  intros p chunks run Hexists Hread Hblank Henc Hfresh.
  subst run. unfold p, chunks.
  rewrite (index_file_run fs embedding_model_encode file_path w content embeddings
             Hexists Hread Hblank Henc).
  fold p chunks. cbv zeta. unfold chunk_requests, enumerate.
  destruct (submit_fresh policy p (len chunks) (combine chunks embeddings) 0%nat
              (collection w) (fun k _ => Hfresh k))
    as (Hok & Hframe & Hput & Hsize & _).
  cbv zeta in Hok, Hframe, Hput, Hsize. cbn [collection_add keyed_collection].
  cbn [fst snd collection]. rewrite Hok. split; [reflexivity|].
  split; [|split; [|exact Hsize]].
  - intros i chunk e Hchunk He. apply (Hput i chunk e). now apply lookup_combine.
  - intros id Hid. apply Hframe. intros k _. apply Hid.
Qed.

(** The theorem at a small file, on an empty store that refuses
    duplicates. *)
Lemma index_file_stores_a_new_file_witness :
  (index_file (Collection0 := keyed_collection unit RejectDuplicate)
     (one_file (lit "x = 1")) unit_embeddings (lit "/src/a.py") empty_world).2
  = Ok (Success (FileReport (lit "/src/a.py") 1)) /\
  size (collection
          (index_file (Collection0 := keyed_collection unit RejectDuplicate)
             (one_file (lit "x = 1")) unit_embeddings (lit "/src/a.py")
             empty_world).1) = 1%nat.
Proof.
  destruct (index_file_stores_a_new_file RejectDuplicate (one_file (lit "x = 1"))
              unit_embeddings (lit "/src/a.py") empty_world (lit "x = 1") [tt]
              ltac:(vm_compute; reflexivity) ltac:(vm_compute; reflexivity)
              ltac:(vm_compute; discriminate) ltac:(vm_compute; reflexivity)
              (fun i => lookup_empty _))
    as (Hok & _ & _ & Hsize).
  split; [exact Hok|exact Hsize].
Defined.

(** The theorem of X11 at a file of two chunks, on a store that refuses
    the id of the second one: the first chunk is stored, the old record
    stays. *)
Lemma index_file_keeps_earlier_chunks_witness :
  index_file (Collection0 := keyed_collection unit RejectDuplicate)
    big_file unit_embeddings (lit "/src/big.py") holding_second_chunk
  = (World (<[chunk_id (lit "/src/big.py") 0
              := Stored tt (repeat "a"%char 600)
                   (Metadata (lit "/src/big.py") (lit "big.py") (lit ".py") 0 2)]>
            (collection holding_second_chunk)) [],
     Ok (Failure (lit "ID already exists") (lit "indexing_error"))).
Proof.
  refine (index_file_keeps_earlier_chunks (keyed_collection unit RejectDuplicate)
            big_file unit_embeddings (lit "/src/big.py") holding_second_chunk
            two_chunk_content [tt; tt]
            [chunk_request (Path (lit "/src/big.py") (lit "big.py") (lit ".py")) 2 0
               (repeat "a"%char 600) tt]
            []
            (chunk_request (Path (lit "/src/big.py") (lit "big.py") (lit ".py")) 2 1
               (repeat "b"%char 600) tt)
            (<[chunk_id (lit "/src/big.py") 0
                 := Stored tt (repeat "a"%char 600)
                      (Metadata (lit "/src/big.py") (lit "big.py") (lit ".py") 0 2)]>
               (collection holding_second_chunk))
            (Exception (lit "ID already exists")) _ _ _ _ _ _ _).
  - vm_compute. reflexivity.
  - vm_compute. reflexivity.
  - vm_compute. discriminate.
  - vm_compute. reflexivity.
  - vm_compute. reflexivity.
  - cbn [submit collection_add keyed_collection].
    rewrite (keyed_add_fresh RejectDuplicate
               (Path (lit "/src/big.py") (lit "big.py") (lit ".py")) 2).
    + reflexivity.
    + apply lookup_singleton_ne. intros Heq. apply chunk_id_index_inj in Heq.
      discriminate.
  - vm_compute. reflexivity.
Defined.

(** ** Indexer: what [index_directory] reports *)

Section DirectoryProperties.

Context {C E : Type} `{!Collection C E}.
Variable fs : file_system.
Variable embedding_model_encode : list str -> result (list E).


(** Every exception of [index_directory] is caught by its own handler. *)
Lemma index_directory_never_raises directory_path extensions exclude_patterns
    (w : world C) :
  exists w' outcome,
    index_directory fs embedding_model_encode directory_path
      extensions exclude_patterns w = (w', Ok outcome).
Proof.
  unfold index_directory, try_except.
  match goal with
  | |- context [match ?m w with _ => _ end] => destruct (m w) as [w' [r|e]]
  end; cbn; eauto.
Qed.

(** An [is_file] that raises ends the body of the loop at once. *)
Lemma index_entry_raises extensions exclude_patterns cnt p (w : world C) e :
  is_file fs p = Raise e ->
  index_entry fs embedding_model_encode extensions exclude_patterns cnt p w
  = (w, Raise e).
Proof. intros Hp. unfold index_entry, bind, lift. now rewrite Hp. Qed.

(** One entry of the listing for which [is_file] answers: a selected file
    adds one to [indexed_count] whatever [index_file] returns, [error_count]
    never moves, and at most one line is printed, the progress line of a
    selected file that makes the count a multiple of 10. *)
Lemma index_entry_prints extensions exclude_patterns cnt p (w : world C) :
  answers fs p ->
  exists c,
    index_entry fs embedding_model_encode extensions exclude_patterns cnt p w
    = (World c
         (stdout w ++
            if selected fs extensions exclude_patterns p
               && ((indexed_count cnt + 1) mod 10 =? 0)
            then [Progress (indexed_count cnt + 1) (name p)] else []),
       Ok (Counters
             (indexed_count cnt
              + if selected fs extensions exclude_patterns p then 1 else 0)
             (skipped_count cnt
              + if filtered_out fs extensions exclude_patterns p then 1 else 0)
             (error_count cnt))).
Proof.
  intros [regular Hp].
  unfold index_entry, selected, filtered_out, is_regular, passes_filters.
  destruct cnt as [n_indexed n_skipped n_errors], w as [c out].
  cbn [indexed_count skipped_count error_count stdout].
  unfold bind at 1. unfold lift. rewrite Hp. cbv beta iota.
  destruct regular; cbn [negb andb];
    [|exists c; unfold ret; rewrite ?Z.add_0_r, app_nil_r; reflexivity].
  destruct (bool_decide (suffix p ∈ extensions)); cbn [negb andb];
    [|exists c; unfold ret; rewrite ?Z.add_0_r, app_nil_r; reflexivity].
  destruct (existsb _ exclude_patterns); cbn [negb andb];
    [exists c; unfold ret; rewrite ?Z.add_0_r, app_nil_r; reflexivity|].
  unfold try_except, bind.
  destruct (index_file_keeps_stdout fs embedding_model_encode (path_str p)
              (World c out)) as (c' & outcome & ->).
  cbn [stdout]. destruct (_ =? 0); cbn; exists c'; unfold ret;
    rewrite ?Z.add_0_r, ?app_nil_r; reflexivity.
Qed.

(** A listing on whose entries [is_file] answers: the loop ends with the
    counters of the selected and of the filtered files, and the counts of
    the lines printed while [indexed_count] goes up are the multiples of 10
    passed on the way, in order. *)
Lemma index_entries_print extensions exclude_patterns :
  forall files cnt (w : world C),
  Forall (answers fs) files ->
  exists c lines,
    index_entries fs embedding_model_encode extensions exclude_patterns cnt files w
    = (World c (stdout w ++ lines),
       Ok (Counters
             (indexed_count cnt
              + len (List.filter (selected fs extensions exclude_patterns) files))
             (skipped_count cnt
              + len (List.filter (filtered_out fs extensions exclude_patterns) files))
             (error_count cnt))) /\
    map progress_count lines
    = map Some
        (List.filter (fun n => n mod 10 =? 0)
           (seqZ (indexed_count cnt + 1)
              (len (List.filter (selected fs extensions exclude_patterns) files)))).
Proof.
  induction files as [|p files IH]; intros [n_indexed n_skipped n_errors] w Hanswers.
  - exists (collection w), []. destruct w. cbn.
    unfold ret. now rewrite !Z.add_0_r, app_nil_r.
  - apply List.Forall_cons_iff in Hanswers as [Hp Hanswers].
    cbn [index_entries]. unfold bind.
    destruct (index_entry_prints extensions exclude_patterns
                (Counters n_indexed n_skipped n_errors) p w Hp) as (c1 & ->).
    cbv beta iota. cbn [indexed_count skipped_count error_count].
    match goal with
    | |- context [index_entries _ _ _ _ ?cnt1 files ?w1] =>
        destruct (IH cnt1 w1 Hanswers) as (c2 & lines & -> & Hlines)
    end.
    cbn [indexed_count skipped_count error_count stdout] in *.
    exists c2,
      ((if selected fs extensions exclude_patterns p && ((n_indexed + 1) mod 10 =? 0)
        then [Progress (n_indexed + 1) (name p)] else []) ++ lines).
    rewrite <- app_assoc. split.
    + cbn [List.filter].
      destruct (selected fs extensions exclude_patterns p),
               (filtered_out fs extensions exclude_patterns p);
        rewrite ?len_cons; do 3 f_equal; lia.
    + rewrite map_app, Hlines. cbn [List.filter].
      pose proof (len_nonneg (List.filter (selected fs extensions exclude_patterns) files)).
      destruct (selected fs extensions exclude_patterns p); cbn [andb].
      * rewrite len_cons.
        replace (len (List.filter (selected fs extensions exclude_patterns) files) + 1)
          with (1 + len (List.filter (selected fs extensions exclude_patterns) files))
          by lia.
        rewrite seqZ_app by lia. rewrite List.filter_app, map_app.
        change (seqZ (n_indexed + 1) 1) with [n_indexed + 1]. cbn [List.filter].
        destruct ((n_indexed + 1) mod 10 =? 0); reflexivity.
      * now rewrite Z.add_0_r.
Qed.

(** The loop over a listing in two parts. *)
Lemma index_entries_app extensions exclude_patterns :
  forall before after cnt (w : world C),
  index_entries fs embedding_model_encode extensions exclude_patterns cnt
    (before ++ after) w
  = match index_entries fs embedding_model_encode extensions exclude_patterns cnt
            before w with
    | (w', Ok cnt') =>
        index_entries fs embedding_model_encode extensions exclude_patterns cnt'
          after w'
    | (w', Raise e) => (w', Raise e)
    end.
Proof.
  induction before as [|p before IH]; intros after cnt w; [reflexivity|].
  cbn [app index_entries]. unfold bind.
  destruct (index_entry _ _ _ _ cnt p w) as [w1 [cnt1|e]]; [apply IH|reflexivity].
Qed.

(** The loop stops at the first entry on which [is_file] raises: the
    entries before it have been processed, the ones after it are not looked
    at. *)
Lemma index_entries_stopped extensions exclude_patterns before p after cnt
    (w : world C) e :
  Forall (answers fs) before ->
  is_file fs p = Raise e ->
  index_entries fs embedding_model_encode extensions exclude_patterns cnt
    (before ++ p :: after) w
  = ((index_entries fs embedding_model_encode extensions exclude_patterns cnt
        before w).1, Raise e).
Proof.
  intros Hbefore Hp. rewrite index_entries_app.
  destruct (index_entries_print extensions exclude_patterns before cnt w Hbefore)
    as (c & lines & -> & _).
  cbn [index_entries fst]. unfold bind.
  now rewrite (index_entry_raises _ _ _ _ _ _ Hp).
Qed.


(** The run of [index_directory] on a directory that exists, from what the
    loop over its listing gives. *)
Lemma index_directory_run directory_path extensions exclude_patterns files failure
    (w : world C) :
  path_exists fs (expanduser fs directory_path) = true ->
  rglob fs (expanduser fs directory_path) = (files, failure) ->
  index_directory fs embedding_model_encode directory_path
    extensions exclude_patterns w
  = match index_entries fs embedding_model_encode
            (default default_extensions extensions)
            (default default_exclude_patterns exclude_patterns)
            (Counters 0 0 0) files w with
    | (w', Ok cnt) =>
        (w', Ok match failure with
                | Some e => Failure (exn_str e) (lit "indexing_error")
                | None =>
                    Success (DirectoryReport (indexed_count cnt) (skipped_count cnt)
                               (error_count cnt)
                               (path_str (expanduser fs directory_path)))
                end)
    | (w', Raise e) => (w', Ok (Failure (exn_str e) (lit "indexing_error")))
    end.
Proof.
  intros Hexists Hfiles. unfold index_directory, try_except.
  rewrite Hexists, Hfiles. change (negb true) with false. cbv beta iota.
  unfold bind.
  destruct (index_entries _ _ _ _ _ files w) as [w' [cnt|e]]; [|reflexivity].
  destruct failure; reflexivity.
Qed.

End DirectoryProperties.



(** X15. [index_directory] never raises, whatever the file system, the
    embedding model and the store do; when the directory is missing, or its
    listing raises before it has yielded an entry, it reports the failure
    and leaves the collection and the output as they were. *)
Theorem index_directory_failures_write_nothing {C E : Type} (H : Collection C E)
    (fs : file_system) (embedding_model_encode : list str -> result (list E))
    (directory_path : str) (extensions exclude_patterns : option (list str))
    (w : world C) :
  (exists w' outcome,
     index_directory fs embedding_model_encode directory_path
       extensions exclude_patterns w = (w', Ok outcome)) /\
  (path_exists fs (expanduser fs directory_path) = false ->
   index_directory fs embedding_model_encode directory_path
     extensions exclude_patterns w
   = (w, Ok (Failure (lit "Directory does not exist: "
                        ++ path_str (expanduser fs directory_path))
                     (lit "path_error")))) /\
  (forall e,
     path_exists fs (expanduser fs directory_path) = true ->
     rglob fs (expanduser fs directory_path) = ([], Some e) ->
     index_directory fs embedding_model_encode directory_path
       extensions exclude_patterns w
     = (w, Ok (Failure (exn_str e) (lit "indexing_error")))).
Proof.
  split; [apply index_directory_never_raises|]. split.
  - intros Hmissing. unfold index_directory, try_except. now rewrite Hmissing.
  - intros e Hexists Hlist.
    now rewrite (index_directory_run fs embedding_model_encode directory_path
                   extensions exclude_patterns [] (Some e) w Hexists Hlist).
Qed.

(** The theorem at a directory that does not exist. *)
Lemma index_directory_failures_write_nothing_witness :
  index_directory (Collection0 := scenario_store) scenario_directory
    unit_embeddings (lit "/nowhere") None None (reindex IgnoreDuplicate).1
  = ((reindex IgnoreDuplicate).1,
     Ok (Failure (lit "Directory does not exist: /nowhere") (lit "path_error"))).
Proof.
  apply (proj1 (proj2 (index_directory_failures_write_nothing scenario_store
                         scenario_directory unit_embeddings (lit "/nowhere")
                         None None (reindex IgnoreDuplicate).1))).
  reflexivity.
Defined.

(** X26. A run of [index_directory] that is cut short, by an [is_file] that
    raises on an entry or by a listing that raises after its entries, ends
    with an ["indexing_error"] that carries the exception and no count; the
    collection and the output are the ones that the loop over the entries
    before the exception has left: what was indexed before stays. *)
Theorem index_directory_cut_short_keeps_earlier_files {C E : Type}
    (H : Collection C E) (fs : file_system)
    (embedding_model_encode : list str -> result (list E))
    (directory_path : str) (extensions exclude_patterns : option (list str))
    (files : list path) (failure : option exn) (w : world C) :
  path_exists fs (expanduser fs directory_path) = true ->
  rglob fs (expanduser fs directory_path) = (files, failure) ->
  let loop :=
    index_entries fs embedding_model_encode
      (default default_extensions extensions)
      (default default_exclude_patterns exclude_patterns) (Counters 0 0 0) in
  (forall before p after e,
     files = before ++ p :: after ->
     Forall (answers fs) before ->
     is_file fs p = Raise e ->
     index_directory fs embedding_model_encode directory_path
       extensions exclude_patterns w
     = ((loop before w).1, Ok (Failure (exn_str e) (lit "indexing_error")))) /\
  (forall e,
     failure = Some e ->
     Forall (answers fs) files ->
     index_directory fs embedding_model_encode directory_path
       extensions exclude_patterns w
     = ((loop files w).1, Ok (Failure (exn_str e) (lit "indexing_error")))).
Proof.
  intros Hexists Hfiles loop. subst loop.
  rewrite (index_directory_run fs embedding_model_encode directory_path
             extensions exclude_patterns files failure w Hexists Hfiles).
  split.
  - intros before p after e -> Hbefore Hp.
    now rewrite (index_entries_stopped fs embedding_model_encode _ _ before p after
                   (Counters 0 0 0) w e Hbefore Hp).
  - intros e -> Hanswers.
    destruct (index_entries_print fs embedding_model_encode
                (default default_extensions extensions)
                (default default_exclude_patterns exclude_patterns)
                files (Counters 0 0 0) w Hanswers) as (c & lines & -> & _).
    reflexivity.
Qed.

(** The theorem at a directory whose second entry cannot be examined: the
    chunk of the first file is in the collection after the run. *)
Lemma index_directory_cut_short_keeps_earlier_files_witness :
  (index_directory (Collection0 := scenario_store) locked_directory
     unit_embeddings (lit "/src") None None empty_world).2
  = Ok (Failure (lit "[Errno 13] Permission denied: '/src/locked'")
                (lit "indexing_error")) /\
  stored_document <$>
    collection (index_directory (Collection0 := scenario_store) locked_directory
                  unit_embeddings (lit "/src") None None empty_world).1
      !! chunk_id (lit "/src/valid.py") 0
  = Some (lit "x = 1").
Proof.
  assert (Hbefore : Forall (answers locked_directory)
            [Path (lit "/src/valid.py") (lit "valid.py") (lit ".py")]).
  { apply List.Forall_cons; [exists true; reflexivity|apply List.Forall_nil]. }
  pose proof (proj1 (index_directory_cut_short_keeps_earlier_files scenario_store
                       locked_directory unit_embeddings (lit "/src") None None
                       _ _ empty_world eq_refl eq_refl)
                [Path (lit "/src/valid.py") (lit "valid.py") (lit ".py")]
                (Path (lit "/src/locked") (lit "locked") [])
                [Path (lit "/src/z.py") (lit "z.py") (lit ".py")]
                (Exception (lit "[Errno 13] Permission denied: '/src/locked'"))
                eq_refl Hbefore eq_refl) as Hrun.
  rewrite Hrun. split; [reflexivity|]. vm_compute. reflexivity.
Defined.

(** ** Indexer: the exclude patterns *)

Lemma startswith_app (pattern rest : str) : startswith pattern (pattern ++ rest) = true.
Proof.
  induction pattern as [|c pattern IH]; [reflexivity|].
  cbn. now rewrite Ascii.eqb_refl, IH.
Qed.

(** [pattern in s] holds when [pattern] occurs anywhere in [s]. *)
Lemma contains_app (before pattern after : str) :
  contains pattern (before ++ pattern ++ after) = true.
Proof.
  assert (Hhere : forall s, startswith pattern s = true -> contains pattern s = true).
  { intros s Hs. destruct s; cbn [contains]; now rewrite Hs. }
  induction before as [|c before IH].
  - change ([] ++ pattern ++ after) with (pattern ++ after).
    apply Hhere, startswith_app.
  - cbn [app contains]. rewrite IH. apply orb_true_r.
Qed.

(** X16. An exclude pattern is looked for anywhere in the whole path, not
    in a path component: a regular file whose path holds an excluded pattern
    as a substring (as [latest.py] holds ["test"]) is counted as skipped and
    never handed to [index_file]; the collection and the output stay as they
    were. *)
Theorem excluded_substring_skips_the_file {C E : Type} (H : Collection C E)
    (fs : file_system) (embedding_model_encode : list str -> result (list E))
    (extensions exclude_patterns : list str) (cnt : counters) (file_path : path)
    (w : world C) (before pattern after : str) :
  is_file fs file_path = Ok true ->
  In pattern exclude_patterns ->
  path_str file_path = before ++ pattern ++ after ->
  index_entry fs embedding_model_encode extensions exclude_patterns cnt file_path w
  = (w, Ok (Counters (indexed_count cnt) (skipped_count cnt + 1) (error_count cnt))).
Proof.
  intros Hfile Hin Hpath. unfold index_entry. unfold bind at 1. unfold lift.
  rewrite Hfile. change (negb true) with false. cbv beta iota.
  destruct (bool_decide _); [|reflexivity].
  change (negb true) with false. cbv beta iota.
  assert (Hexcluded : existsb (fun pattern => contains pattern (path_str file_path))
                        exclude_patterns = true).
  { apply existsb_exists. exists pattern. split; [assumption|].
    rewrite Hpath. apply contains_app. }
  now rewrite Hexcluded.
Qed.

(** The theorem at [/src/latest.py] and the default patterns. *)
Lemma excluded_substring_skips_the_file_witness :
  index_entry (Collection0 := scenario_store) latest_directory unit_embeddings
    default_extensions default_exclude_patterns (Counters 0 0 0) latest_file
    empty_world
  = (empty_world, Ok (Counters 0 1 0)).
Proof.
  apply (excluded_substring_skips_the_file scenario_store latest_directory
           unit_embeddings default_extensions default_exclude_patterns
           (Counters 0 0 0) latest_file empty_world
           (lit "/src/la") (lit "test") (lit ".py")).
  - reflexivity.
  - vm_compute. do 7 right. left. reflexivity.
  - reflexivity.
Defined.

(** ** Indexer: the progress lines *)



(** ** Statistics *)

Section StatisticsProperties.

Context {C : Type}.
Variable db_path : str.
Variable collection_count : C -> result Z.
Variable collection_get : C -> result (option (list metadata)).

Lemma get_stats_never_raises (w : world C) :
  exists outcome,
    get_stats db_path collection_count collection_get w = (w, Ok outcome).
Proof.
  unfold get_stats, try_except, bind, ret.
  destruct (collection_count (collection w)) as [n|e]; [|eauto].
  destruct (collection_get (collection w)) as [all_metadata|e]; eauto.
Qed.

(** The set built by [get_stats] holds the paths of the metadatas. *)
Lemma unique_files_elements (metadatas : list metadata) (x : str) :
  x ∈ elements (match metadatas with
                | (_ :: _) as ms => list_to_set (map file_path ms)
                | [] => ∅
                end : gset str)
  <-> In x (map file_path metadatas).
Proof.
  rewrite elem_of_elements. destruct metadatas as [|m metadatas].
  - cbn. set_solver.
  - rewrite elem_of_list_to_set. apply list_elem_of_In.
Qed.

End StatisticsProperties.

(** X18. [get_stats] never raises and leaves the collection and the output
    as they were.  When the store answers, [total_chunks] is the store's
    count and [unique_files] is the number of different [file_path] values
    among the metadatas: the length of a list without duplicates that holds
    exactly these paths (0 when there is no metadata). *)
Theorem get_stats_counts_distinct_paths {C : Type} (db_path : str)
    (collection_count : C -> result Z)
    (collection_get : C -> result (option (list metadata))) (w : world C) :
  (exists outcome,
     get_stats db_path collection_count collection_get w = (w, Ok outcome)) /\
  (forall n metadatas,
     collection_count (collection w) = Ok n ->
     collection_get (collection w) = Ok (Some metadatas) ->
     exists report paths,
       get_stats db_path collection_count collection_get w
       = (w, Ok (Success report)) /\
       stats_total_chunks report = n /\
       stats_db_path report = db_path /\
       stats_unique_files report = len paths /\
       NoDup paths /\
       (forall x, In x paths <-> In x (map file_path metadatas))).
Proof.
  split; [apply get_stats_never_raises|].
  intros n metadatas Hcount Hget.
  unfold get_stats, try_except, bind, ret. rewrite Hcount, Hget.
  eexists _, (elements (match metadatas with
                        | (_ :: _) as ms => list_to_set (map file_path ms)
                        | [] => ∅
                        end : gset str)).
  split; [reflexivity|]. cbn [stats_total_chunks stats_db_path stats_unique_files].
  split; [reflexivity|]. split; [reflexivity|]. split; [|split].
  - destruct metadatas; reflexivity.
  - apply NoDup_elements.
  - intros x. rewrite <- unique_files_elements. symmetry. apply list_elem_of_In.
Qed.

(** The theorem at a store answering with three metadatas of two files. *)
Lemma get_stats_counts_distinct_paths_witness :
  exists report,
    get_stats (lit "~/.mlx/chroma_db") (fun _ : unit => Ok 3)
      (fun _ : unit =>
         Ok (Some [Metadata (lit "/src/a.py") (lit "a.py") (lit ".py") 0 2;
                   Metadata (lit "/src/a.py") (lit "a.py") (lit ".py") 1 2;
                   Metadata (lit "/src/b.py") (lit "b.py") (lit ".py") 0 1]))
      (World tt [])
    = (World tt [], Ok (Success report)) /\
    stats_total_chunks report = 3 /\
    stats_unique_files report = 2.
Proof.
  destruct (proj2 (get_stats_counts_distinct_paths (lit "~/.mlx/chroma_db")
                     (fun _ : unit => Ok 3)
                     (fun _ : unit =>
                        Ok (Some [Metadata (lit "/src/a.py") (lit "a.py") (lit ".py") 0 2;
                                  Metadata (lit "/src/a.py") (lit "a.py") (lit ".py") 1 2;
                                  Metadata (lit "/src/b.py") (lit "b.py") (lit ".py") 0 1]))
                     (World tt [])) 3 _ eq_refl eq_refl)
    as (report & paths & Hrun & Htotal & _ & Hunique & _ & _).
  exists report. split; [exact Hrun|]. split; [exact Htotal|].
  apply (f_equal snd) in Hrun. cbn [snd] in Hrun.
  injection Hrun as <-. vm_compute. reflexivity.
Defined.

Lemma list_to_set_all_equal (x : str) (l : list str) :
  l <> [] -> Forall (eq x) l -> (list_to_set l : gset str) = {[x]}.
Proof.
  intros Hne Hall. apply set_eq. intros y.
  rewrite elem_of_list_to_set, elem_of_singleton. split.
  - intros Hy. rewrite List.Forall_forall in Hall.
    symmetry. apply Hall. now apply list_elem_of_In.
  - intros ->. destruct l as [|z l]; [congruence|].
    apply List.Forall_cons_iff in Hall as [<- _]. left.
Qed.

(** X19. Indexing then counting: after [index_file] has stored a file,
    whose chunks all got an embedding, in an empty keyed store (whatever its
    policy for duplicates), [get_stats] reports as many chunks as the
    chunker made and one file. *)
Theorem stats_after_indexing_one_file {E : Type} (policy : duplicate_policy)
    (fs : file_system) (embedding_model_encode : list str -> result (list E))
    (source_path : str) (content : str) (embeddings : list E) (db_path : str) :
  let p := expanduser fs source_path in
  let chunks := _split_into_chunks content 1000 in
  let indexed_world :=
    (index_file (Collection0 := keyed_collection E policy)
       fs embedding_model_encode source_path (World ∅ [])).1 in
  path_exists fs p = true ->
  read_text fs p = Ok content ->
  strip content <> [] ->
  embedding_model_encode chunks = Ok embeddings ->
  length embeddings = length chunks ->
  get_stats db_path keyed_count keyed_get indexed_world
  = (indexed_world, Ok (Success (StatsReport (len chunks) 1 db_path))).
Proof.
  intros p chunks indexed_world Hexists Hread Hblank Henc Hlen.
  subst indexed_world. unfold p, chunks.
  rewrite (index_file_run fs embedding_model_encode source_path (World ∅ [])
             content embeddings Hexists Hread Hblank Henc).
  fold p chunks. cbv zeta. unfold chunk_requests, enumerate.
  destruct (submit_fresh policy p (len chunks) (combine chunks embeddings) 0%nat
              ∅ (fun k _ => lookup_empty _))
    as (_ & _ & _ & Hsize & Hpath).
  cbv zeta in Hsize, Hpath. cbn [collection_add keyed_collection collection fst].
  set (c := (submit (keyed_add policy) _ ∅).1) in *.
  assert (Hcount : size c = length chunks).
  { rewrite Hsize, map_size_empty, length_combine. lia. }
  assert (Hchunks : (1 <= length chunks)%nat).
  { pose proof (strip_split_whitespace content Hblank) as Hwords.
    rewrite <- (chunks_keep_words content 1000) in Hwords. fold chunks in Hwords.
    destruct chunks; [now destruct Hwords|cbn; lia]. }
  unfold get_stats, try_except, bind, ret, keyed_count, keyed_get.
  cbn [collection]. rewrite Hcount. fold (len chunks).
  set (ms := map (fun row : str * stored E => stored_metadata row.2) (map_to_list c)).
  assert (Hms : ms <> []).
  { intros Hnil. apply (f_equal length) in Hnil. unfold ms in Hnil.
    rewrite length_map, length_map_to_list in Hnil. cbn in Hnil. lia. }
  assert (Hall : Forall (eq (path_str p)) (map file_path ms)).
  { apply List.Forall_forall. intros x Hx. apply in_map_iff in Hx as (m & <- & Hm).
    unfold ms in Hm. apply in_map_iff in Hm as ([id v] & <- & Hrow).
    apply list_elem_of_In, elem_of_map_to_list in Hrow.
    destruct (Hpath id v Hrow) as [Hempty | Hp]; [|now symmetry].
    rewrite lookup_empty in Hempty. discriminate. }
  destruct ms as [|m ms'] eqn:Hmseq; [congruence|].
  rewrite (list_to_set_all_equal (path_str p)); [|discriminate|exact Hall].
  rewrite size_singleton. reflexivity.
Qed.

(** The theorem at a small file, on a store that refuses duplicates. *)
Lemma stats_after_indexing_one_file_witness :
  get_stats (lit "~/.mlx/chroma_db") keyed_count keyed_get
    (index_file (Collection0 := keyed_collection unit RejectDuplicate)
       (one_file (lit "x = 1")) unit_embeddings (lit "/src/a.py") empty_world).1
  = ((index_file (Collection0 := keyed_collection unit RejectDuplicate)
        (one_file (lit "x = 1")) unit_embeddings (lit "/src/a.py") empty_world).1,
     Ok (Success (StatsReport 1 1 (lit "~/.mlx/chroma_db")))).
Proof.
  exact (stats_after_indexing_one_file RejectDuplicate (one_file (lit "x = 1"))
           unit_embeddings (lit "/src/a.py") (lit "x = 1") [tt]
           (lit "~/.mlx/chroma_db")
           ltac:(vm_compute; reflexivity) ltac:(vm_compute; reflexivity)
           ltac:(vm_compute; discriminate) ltac:(vm_compute; reflexivity)
           ltac:(vm_compute; reflexivity)).
Defined.

(** ** Inference engine *)

(** X20. Whatever the engine holds and whatever the generator does,
    [generate] yields events that end with exactly one terminal event, a
    ["done"] or an error, with no terminal event before it; in stream mode
    the events before it are token events only, otherwise there is at most
    one, the complete text. *)
Theorem generate_ends_with_one_terminal_event {Mdl Tok F : Type}
    (mlx_generate : Mdl -> Tok -> str -> Z -> result (list str * option exn))
    (self : engine Mdl Tok) (prompt : str) (max_tokens : Z)
    (temperature top_p repetition_penalty : F) (stream : bool) :
  exists body terminal,
    generate mlx_generate self prompt max_tokens temperature top_p
      repetition_penalty stream = body ++ [terminal] /\
    is_terminal terminal = true /\
    forallb (fun e => negb (is_terminal e)) body = true /\
    (if stream then forallb is_token body = true else (length body <= 1)%nat).
Proof.
  unfold generate.
  assert (Hnone : exists body terminal,
            [ErrorEvent (lit "No model loaded. Call load_model first.")
               (lit "model_error")] = body ++ [terminal] /\
            is_terminal terminal = true /\
            forallb (fun e => negb (is_terminal e)) body = true /\
            (if stream then forallb is_token body = true else (length body <= 1)%nat)).
  { exists [], (ErrorEvent (lit "No model loaded. Call load_model first.")
                  (lit "model_error")).
    split; [reflexivity|]. split; [reflexivity|]. split; [reflexivity|].
    destruct stream; cbn; [reflexivity|lia]. }
  destruct (model self) as [m|]; [|exact Hnone].
  destruct (tokenizer self) as [t|]; [|exact Hnone].
  assert (Herror : forall e, exists body terminal,
            [ErrorEvent (exn_str e) (lit "generation_error")] = body ++ [terminal] /\
            is_terminal terminal = true /\
            forallb (fun e => negb (is_terminal e)) body = true /\
            (if stream then forallb is_token body = true else (length body <= 1)%nat)).
  { intros e. exists [], (ErrorEvent (exn_str e) (lit "generation_error")).
    split; [reflexivity|]. split; [reflexivity|]. split; [reflexivity|].
    destruct stream; cbn; [reflexivity|lia]. }
  destruct (mlx_generate m t prompt max_tokens) as [[tokens failure]|e];
    [|apply Herror].
  destruct stream.
  - assert (Htokens : forallb (fun e => negb (is_terminal e)) (map TokenEvent tokens)
                      = true /\ forallb is_token (map TokenEvent tokens) = true).
    { induction tokens as [|tk tokens [IH1 IH2]]; split; cbn; auto. }
    destruct Htokens as [Hbody Htoken].
    exists (map TokenEvent tokens). destruct failure as [e|]; eexists;
      (split; [reflexivity|]); (split; [reflexivity|]); split; assumption.
  - destruct failure as [e|]; [apply Herror|].
    exists [CompleteEvent (concat tokens)], DoneEvent.
    split; [reflexivity|]. split; [reflexivity|]. split; [reflexivity|]. cbn. lia.
Qed.

(** X21. After [unload_model], whatever the engine held and whether or not
    the garbage collection raised, [generate] yields the single
    ["model_error"] event and does not call the generator. *)
Theorem generate_after_unload_reports_no_model {Mdl Tok F : Type}
    (mlx_generate : Mdl -> Tok -> str -> Z -> result (list str * option exn))
    (gc_collect : result unit) (self : engine Mdl Tok) (prompt : str)
    (max_tokens : Z) (temperature top_p repetition_penalty : F) (stream : bool) :
  generate mlx_generate (fst (unload_model gc_collect self)) prompt max_tokens
    temperature top_p repetition_penalty stream
  = [ErrorEvent (lit "No model loaded. Call load_model first.") (lit "model_error")].
Proof.
  unfold unload_model. destruct gc_collect; reflexivity.
Qed.

(** X22. Once [load_model] has succeeded for a path, loading the same
    path again, when it still expands to the same path, does not consult the
    loader and leaves the engine as it was: if the path still exists the
    call succeeds from the cache and the report says [cached]; if it has
    been removed in between the call returns a ["path_error"], although the
    model is still loaded. *)
Theorem second_load_is_cached {Mdl Tok : Type} (fs fs' : file_system)
    (mlx_load mlx_load' : str -> result (Mdl * Tok))
    (self self' : engine Mdl Tok) (p : str) (report : load_report) :
  load_model fs mlx_load self p = (self', Success report) ->
  expanduser fs' p = expanduser fs p ->
  load_model fs' mlx_load' self' p
  = if path_exists fs' (expanduser fs p)
    then (self', Success (LoadReport (loaded_path report) (loaded_name report)
                            (lit "mlx") true (lit "Model already loaded (cached)")))
    else (self', Failure (lit "Model path does not exist: " ++ loaded_path report)
                         (lit "path_error")).
Proof.
  intros Hload Hsame.
  assert (Hfirst : loaded_path report = path_str (expanduser fs p) /\
                   loaded_name report = name (expanduser fs p) /\
                   exists m loaded,
                     model self' = Some m /\ model_path self' = Some loaded /\
                     path_str loaded = path_str (expanduser fs p)).
  { revert Hload. unfold load_model.
    destruct (path_exists fs (expanduser fs p)); cbn [negb]; [|discriminate].
    destruct (model self) as [m|] eqn:Hmodel.
    - destruct (model_path self) as [loaded|] eqn:Hpath.
      + destruct (bool_decide (path_str loaded = path_str (expanduser fs p)))
          eqn:Hcached.
        * intros H. injection H as <- <-. apply bool_decide_eq_true_1 in Hcached.
          cbn. eauto 8.
        * destruct (mlx_load _) as [[m' t']|e]; [|discriminate].
          intros H. injection H as <- <-. cbn. eauto 8.
      + destruct (mlx_load _) as [[m' t']|e]; [|discriminate].
        intros H. injection H as <- <-. cbn. eauto 8.
    - destruct (mlx_load _) as [[m' t']|e]; [|discriminate].
      intros H. injection H as <- <-. cbn. eauto 8. }
  destruct Hfirst as (-> & -> & m & loaded & Hmodel & Hpath & Hloaded).
  unfold load_model. rewrite Hsame.
  destruct (path_exists fs' (expanduser fs p)); cbn [negb]; [|reflexivity].
  rewrite Hmodel, Hpath, bool_decide_eq_true_2 by exact Hloaded. reflexivity.
Qed.

(** The theorem at a model loaded from [/models/m], with a loader that
    would fail at the second call: when the directory is still there, and
    when it has been removed. *)
Lemma second_load_is_cached_witness :
  let loaded :=
    Engine (Some tt) (Some tt) (Some (Path (lit "/models/m") (lit "/models/m") [])) in
  load_model model_directory failing_load loaded (lit "/models/m")
  = (loaded,
     Success (LoadReport (lit "/models/m") (lit "/models/m") (lit "mlx") true
                (lit "Model already loaded (cached)"))) /\
  load_model model_removed failing_load loaded (lit "/models/m")
  = (loaded,
     Failure (lit "Model path does not exist: /models/m") (lit "path_error")).
Proof.
  intros loaded.
  assert (Hfirst : load_model model_directory unit_load __init__ (lit "/models/m")
                   = (loaded,
                      Success (LoadReport (lit "/models/m") (lit "/models/m")
                                 (lit "mlx") false (lit "Model loaded from disk"))))
    by (vm_compute; reflexivity).
  split.
  - exact (second_load_is_cached model_directory model_directory unit_load
             failing_load __init__ loaded (lit "/models/m") _ Hfirst eq_refl).
  - exact (second_load_is_cached model_directory model_removed unit_load
             failing_load __init__ loaded (lit "/models/m") _ Hfirst eq_refl).
Defined.

(** X23. A [load_model] that fails, because the path does not exist or
    because the loader raised, leaves the engine as it was: a model loaded
    before stays loaded. *)
Theorem failed_load_keeps_the_engine {Mdl Tok : Type} (fs : file_system)
    (mlx_load : str -> result (Mdl * Tok))
    (self self' : engine Mdl Tok) (p : str) (error type : str) :
  load_model fs mlx_load self p = (self', Failure error type) ->
  self' = self /\ (type = lit "path_error" \/ type = lit "load_error").
Proof.
  unfold load_model.
  destruct (path_exists fs (expanduser fs p)); cbn [negb].
  - destruct (match model self with Some _ => _ | None => _ end); [discriminate|].
    destruct (mlx_load _) as [[m t]|e]; [discriminate|].
    intros H. injection H as <- _ <-. auto.
  - intros H. injection H as <- _ <-. auto.
Qed.

Lemma failed_load_keeps_the_engine_witness :
  Engine (Some tt) (Some tt) (Some (Path (lit "/models/m") (lit "/models/m") []))
  = Engine (Some tt) (Some tt) (Some (Path (lit "/models/m") (lit "/models/m") []))
  /\ (lit "path_error" = lit "path_error" \/ lit "path_error" = lit "load_error").
Proof.
  apply (failed_load_keeps_the_engine model_directory unit_load
           (Engine (Some tt) (Some tt)
              (Some (Path (lit "/models/m") (lit "/models/m") [])))
           _ (lit "/models/other")
           (lit "Model path does not exist: /models/other")).
  vm_compute. reflexivity.
Defined.

(** X24. The model, the tokenizer and the path of an engine are set
    together or not at all: this holds for a new engine and is kept by
    [load_model] and by [unload_model], whatever the file system, the loader
    and the garbage collection do. *)
Theorem engine_fields_are_set_together {Mdl Tok : Type} (fs : file_system)
    (mlx_load : str -> result (Mdl * Tok)) (gc_collect : result unit)
    (self : engine Mdl Tok) (p : str) :
  loaded_together self ->
  loaded_together (@__init__ Mdl Tok) /\
  loaded_together (fst (load_model fs mlx_load self p)) /\
  loaded_together (fst (unload_model gc_collect self)).
Proof.
  intros Hself. split; [exact I|]. split.
  - unfold load_model.
    destruct (negb _); [exact Hself|].
    destruct (match model self with Some _ => _ | None => _ end); [exact Hself|].
    destruct (mlx_load _) as [[m t]|e]; [exact I|exact Hself].
  - unfold unload_model. destruct gc_collect; exact I.
Qed.

Lemma engine_fields_are_set_together_witness :
  loaded_together (@__init__ unit unit) /\
  loaded_together (fst (load_model model_directory unit_load __init__ (lit "/models/m"))) /\
  loaded_together (fst (unload_model (Ok tt) (@__init__ unit unit))).
Proof.
  apply (engine_fields_are_set_together model_directory unit_load (Ok tt)
           __init__ (lit "/models/m")).
  exact I.
Defined.

(** X25. On an engine whose fields are set together, after a [load_model]
    that succeeded, from the disk or from the cache, [generate] never yields
    a ["model_error"] event. *)
Theorem generate_after_load_finds_the_model {Mdl Tok F : Type} (fs : file_system)
    (mlx_load : str -> result (Mdl * Tok))
    (mlx_generate : Mdl -> Tok -> str -> Z -> result (list str * option exn))
    (self self' : engine Mdl Tok) (p : str) (report : load_report)
    (prompt : str) (max_tokens : Z) (temperature top_p repetition_penalty : F)
    (stream : bool) (error : str) :
  loaded_together self ->
  load_model fs mlx_load self p = (self', Success report) ->
  ~ In (ErrorEvent error (lit "model_error"))
       (generate mlx_generate self' prompt max_tokens temperature top_p
          repetition_penalty stream).
Proof.
  intros Hself Hload.
  assert (Hloaded : exists m t, model self' = Some m /\ tokenizer self' = Some t).
  { revert Hload. unfold load_model.
    destruct (negb _); [discriminate|].
    unfold loaded_together in Hself.
    destruct (model self) as [m|] eqn:Hmodel.
    - destruct (tokenizer self) as [t|] eqn:Htok; [|contradiction].
      destruct (model_path self) as [loaded|]; [|contradiction].
      destruct (bool_decide _).
      + intros H. injection H as <- _. eauto.
      + destruct (mlx_load _) as [[m' t']|e]; [|discriminate].
        intros H. injection H as <- _. cbn. eauto.
    - destruct (mlx_load _) as [[m' t']|e]; [|discriminate].
      intros H. injection H as <- _. cbn. eauto. }
  destruct Hloaded as (m & t & Hmodel & Htok).
  unfold generate. rewrite Hmodel, Htok.
  assert (Hother : forall e, ErrorEvent error (lit "model_error")
                             <> ErrorEvent (exn_str e) (lit "generation_error")).
  { intros e H. injection H as _ H. vm_compute in H. discriminate H. }
  destruct (mlx_generate m t prompt max_tokens) as [[tokens failure]|e].
  - destruct stream.
    + rewrite in_app_iff. intros [H|H].
      * apply in_map_iff in H. destruct H as (tk & H & _). discriminate H.
      * destruct failure as [e|]; destruct H as [H|[]];
          [symmetry in H; exact (Hother e H)|discriminate H].
    + destruct failure as [e|].
      * intros [H|[]]. symmetry in H. exact (Hother e H).
      * intros [H|[H|[]]]; discriminate H.
  - intros [H|[]]. symmetry in H. exact (Hother e H).
Qed.

Lemma generate_after_load_finds_the_model_witness :
  ~ In (ErrorEvent (lit "No model loaded. Call load_model first.") (lit "model_error"))
       (generate two_tokens
          (Engine (Some tt) (Some tt)
             (Some (Path (lit "/models/m") (lit "/models/m") [])))
          (lit "Hi") 2048 tt tt tt true).
Proof.
  apply (generate_after_load_finds_the_model model_directory unit_load two_tokens
           __init__ _ (lit "/models/m")
           (LoadReport (lit "/models/m") (lit "/models/m") (lit "mlx") false
              (lit "Model loaded from disk"))).
  - exact I.
  - vm_compute. reflexivity.
Defined.
